(** * Population: resource selection, aggregation and reconciliation

    A shallow embedding of [src/population.py] (class [Population]) and the
    properties of its five methods:

    - [find_resource]        (lines 24-62)
    - [analyze_raster]       (lines 64-85)
    - [analyze_tabular]      (lines 87-120)
    - [update_population]    (lines 122-149)
    - [update_hdx_resource]  (lines 151-174)

    Modelling conventions.

    - Python [str] is [string] (the ASCII fragment); [str.lower], [str.upper],
      [\d] and [re.IGNORECASE] are their ASCII versions.
    - Python [int] is [Z].  A Python [float] that is finite is the dyadic
      rational [mant * 2 ^ expo]: every finite double is of that form.
    - [None] is [None]; a value that may be [None] is an [option].
    - A raised exception is [Raise e]; a method that returns is [Ok v].
    - [logger.info/warning/error] append to an explicit log.
    - [self.boundaries] is a pandas frame that the methods mutate in place: it
      is threaded through the calls as a list of rows.  Every row carries its
      pandas index label, because [DataFrame.drop] removes rows by label.
    - The catalog, the row streamer, the zonal statistics, the country names
      and the regular-expression engine for configured patterns are
      collaborators outside the file: they are the fields of [Collaborators].
      A collaborator returns; the one fault of a collaborator that the code
      handles, [DownloadError], is the [None] of [download].  The sum that
      the zonal statistics attach to a feature is [None] or a finite float.
    - A dict is the list of its items in insertion order.  The levels of a
      country, which the code takes from a [set], are taken in ascending
      order. *)

From Stdlib Require Import ZArith Bool List String Ascii Lia DecimalString.
From Stdlib Require Import Permutation Sorted.
Import ListNotations.

Open Scope string_scope.
Open Scope Z_scope.

(* ================================================================== *)
(** * Python values *)
(* ================================================================== *)

(** The exceptions the modelled code can raise by itself. *)
Inductive exn : Type :=
  | AttributeError   (* [None.get_resources()] *)
  | ValueError       (* [max([])] *)
  | IndexError.      (* [[][0]] *)

Inductive result (A : Type) : Type :=
  | Ok (a : A)
  | Raise (e : exn).
Arguments Ok {A} a.
Arguments Raise {A} e.

Inductive severity : Type := Info | Warning | Error.

Definition log_entry : Type := (severity * string)%type.

(** One call of [logger.<severity>(msg)]. *)
Definition emit (log : list log_entry) (s : severity) (msg : string)
  : list log_entry := List.app log [(s, msg)].

(** A cell of a frame column or of a streamed row. *)
Inductive cell : Type :=
  | CNull
  | CInt (z : Z)
  | CStr (s : string).

(** A finite Python float, [mant * 2 ^ expo]. *)
Record float64 : Type := mkFloat { mant : Z; expo : Z }.

(** [bool(x)] of a float: zero is false. *)
Definition float_truthy (x : float64) : bool := negb (mant x =? 0).

(** [int(round(x, 0))]: Python 3 rounds to the nearest integer and sends a
    tie to the even neighbour; [int] of the integral result is exact. *)
Definition int_round (x : float64) : Z :=
  if 0 <=? expo x then mant x * 2 ^ expo x
  else
    let d := 2 ^ (- expo x) in
    let q := mant x / d in
    let r := mant x mod d in
    if 2 * r <? d then q
    else if d <? 2 * r then q + 1
    else if Z.even q then q else q + 1.

(* ================================================================== *)
(** * Strings *)
(* ================================================================== *)

Definition is_digit (c : ascii) : bool :=
  let n := nat_of_ascii c in (48 <=? n)%nat && (n <=? 57)%nat.

Definition lower_ascii (c : ascii) : ascii :=
  let n := nat_of_ascii c in
  if (65 <=? n)%nat && (n <=? 90)%nat then ascii_of_nat (n + 32) else c.

Definition upper_ascii (c : ascii) : ascii :=
  let n := nat_of_ascii c in
  if (97 <=? n)%nat && (n <=? 122)%nat then ascii_of_nat (n - 32) else c.

Fixpoint map_string (f : ascii -> ascii) (s : string) : string :=
  match s with
  | EmptyString => EmptyString
  | String c s' => String (f c) (map_string f s')
  end.

(** [s.lower()] and [s.upper()]. *)
Definition lower (s : string) : string := map_string lower_ascii s.
Definition upper (s : string) : string := map_string upper_ascii s.

(** [str(n)] of an integer. *)
Definition str (n : Z) : string := NilZero.string_of_int (Z.to_int n).

(** [int(s)] of a string of decimal digits (the only strings the code
    converts are the tokens found by [\d{4}]). *)
Definition digit_value (c : ascii) : Z := Z.of_nat (nat_of_ascii c) - 48.

Fixpoint int_acc (acc : Z) (s : string) : Z :=
  match s with
  | EmptyString => acc
  | String c s' => int_acc (10 * acc + digit_value c) s'
  end.

Definition int (s : string) : Z := int_acc 0 s.

(** [p] is a prefix of [s] up to letter case. *)
Fixpoint prefix_ci (p s : string) : bool :=
  match p, s with
  | EmptyString, _ => true
  | String _ _, EmptyString => false
  | String a p', String b s' =>
      Ascii.eqb (lower_ascii a) (lower_ascii b) && prefix_ci p' s'
  end.

(** [needle in hay]. *)
Fixpoint contains (needle hay : string) : bool :=
  String.prefix needle hay
  || match hay with
     | EmptyString => false
     | String _ hay' => contains needle hay'
     end.

(** [h.replace("#", by)]. *)
Fixpoint replace_hash (by_ : string) (h : string) : string :=
  match h with
  | EmptyString => EmptyString
  | String c h' =>
      if Ascii.eqb c "#"%char then by_ ++ replace_hash by_ h'
      else String c (replace_hash by_ h')
  end.

(** The first [n] characters of [s] are digits (and there are [n]). *)
Fixpoint digits_prefix (n : nat) (s : string) : bool :=
  match n, s with
  | O, _ => true
  | S _, EmptyString => false
  | S n', String c s' => is_digit c && digits_prefix n' s'
  end.

Fixpoint drop (n : nat) (s : string) : string :=
  match n, s with
  | O, _ => s
  | S _, EmptyString => EmptyString
  | S n', String _ s' => drop n' s'
  end.

Definition starts_with_digit (s : string) : bool :=
  match s with
  | EmptyString => false
  | String c _ => is_digit c
  end.

(** [re.match("(?<!\d)\d{4}_constrained", name, re.IGNORECASE)]: [re.match]
    anchors at position 0, where the look-behind holds. *)
Definition constrained_match (name : string) : bool :=
  digits_prefix 4 name && prefix_ci "_constrained" (drop 4 name).

(** [re.findall("(?<!\d)\d{4}(?!\d)", name)]: a match is tried at every
    position; [prev_digit] is the look-behind.  After a match the engine
    resumes four characters on; the three positions in between follow a digit
    and cannot match, so trying them changes nothing. *)
Fixpoint findall_year_from (prev_digit : bool) (s : string) : list string :=
  match s with
  | EmptyString => []
  | String c s' =>
      (if negb prev_digit && digits_prefix 4 s
          && negb (starts_with_digit (drop 4 s))
       then [substring 0 4 s] else [])
      ++ findall_year_from (is_digit c) s'
  end.

Definition findall_year (name : string) : list string :=
  findall_year_from false name.

Definition is_newline (c : ascii) : bool := Ascii.eqb c "010"%char.

(** [re.match(".*" + core + ".*", name)] for a [core] recognised at the head
    of a suffix by [at_head]: the leading [.*] crosses no newline. *)
Fixpoint match_in_first_line (at_head : string -> bool) (name : string) : bool :=
  at_head name
  || match name with
     | EmptyString => false
     | String c name' =>
         negb (is_newline c) && match_in_first_line at_head name'
     end.

(** [re.match(f".*adm(in)?{level}.*", name, re.IGNORECASE)]. *)
Definition adm_level_match (level : Z) (name : string) : bool :=
  match_in_first_line
    (fun s => prefix_ci ("adm" ++ str level) s
              || prefix_ci ("admin" ++ str level) s)
    name.

(** [max(l)]. *)
Definition py_max (l : list Z) : result Z :=
  match l with
  | [] => Raise ValueError
  | x :: xs => Ok (fold_left Z.max xs x)
  end.

(** [d.get(k)] of a dict given as its items. *)
Fixpoint dict_get {V : Type} (d : list (string * V)) (k : string) : option V :=
  match d with
  | [] => None
  | (k', v) :: d' => if String.eqb k' k then Some v else dict_get d' k
  end.

(** [x in l] for a list of strings. *)
Definition str_in (x : string) (l : list string) : bool :=
  existsb (String.eqb x) l.

(* ================================================================== *)
(** * Data model *)
(* ================================================================== *)

(** The value of [resource_type]: the strings ["geotiff"] and ["csv"]. *)
Inductive kind : Type := Geotiff | Csv.

Definition kind_name (k : kind) : string :=
  match k with Geotiff => "geotiff" | Csv => "csv" end.

(** A resource of the catalog.  [download] is the outcome of
    [resource.download(folder=...)]: the path of the file, or [None] when it
    raises [DownloadError]. *)
Record Resource : Type := mkResource {
  name : string;
  file_type : string;
  url : string;
  download : option string
}.

Record Dataset : Type := mkDataset { get_resources : list Resource }.

(** A row of the overall population table: the boundary attributes
    without the geometry.  [label] is the row's pandas index label. *)
Record PopulationRow : Type := mkRow {
  label : Z;
  alpha_3 : string;
  ADM_LEVEL : Z;
  ADM_PCODE : string;
  Population : cell;
  other : list (string * cell)
}.

(** A row of [self.boundaries]. *)
Record BoundaryRecord : Type := mkBoundary {
  attrs :> PopulationRow;
  geometry : string
}.

Definition set_Population (v : cell) (r : BoundaryRecord) : BoundaryRecord :=
  mkBoundary
    (mkRow (label r) (alpha_3 r) (ADM_LEVEL r) (ADM_PCODE r) v (other r))
    (geometry r).

(** A streamed row: the value under each declared header.  The code indexes
    a row by members of the header list only. *)
Definition row : Type := string -> cell.

(** [configuration]: the keys the class reads. *)
Record Configuration : Type := mkConfiguration {
  dataset_exceptions : list (string * string);
  resource_exceptions : list (string * string);
  pcode_mappings : list string;
  do_not_process : list string
}.

(** The collaborators.
    - [read_from_hdx n]: [Dataset.read_from_hdx(n)], [None] for no dataset.
    - [country_slug iso]: [slugify(Country.get_country_name_from_iso3(iso))].
    - [re_match_override p n]: [re.match(f".*{p}.*", n, re.IGNORECASE)] for a
      pattern [p] configured under [resource_exceptions].
    - [get_tabular_rows u]: the headers and the rows of the file at [u].
    - [zonal_sum raster g]: the ["sum"] that [zonal_stats] attaches to the
      feature of geometry [g]: [None] when no cell is covered.
    - [csv_rows path]: the records [read_csv] parses from the file. *)
Record Collaborators : Type := mkCollaborators {
  read_from_hdx : string -> option Dataset;
  country_slug : string -> string;
  re_match_override : string -> string -> bool;
  get_tabular_rows : string -> list string * list row;
  zonal_sum : string -> string -> option float64;
  csv_rows : string -> list PopulationRow
}.

(* ================================================================== *)
(** * The class [Population] *)
(* ================================================================== *)

Section Population.

(** [self.downloader] and the libraries the module imports. *)
Variable env : Collaborators.
(** [configuration], as [__init__] reads it. *)
Variable cfg : Configuration.

(** ** [find_resource] *)

(** [r.get_file_type() == "geotiff" and bool(re.match(..., r["name"]))]. *)
Definition is_constrained_geotiff (r : Resource) : bool :=
  String.eqb (file_type r) "geotiff" && constrained_match (name r).

(** [re.match(f".*{resource_name}.*", r["name"], re.IGNORECASE)] with
    [resource_name = self.exceptions["resource"].get(iso, f"adm(in)?{level}")]. *)
Definition resource_name_match (iso : string) (level : Z) (n : string) : bool :=
  match dict_get (resource_exceptions cfg) iso with
  | Some p => re_match_override env p n
  | None => adm_level_match level n
  end.

Definition is_level_csv (iso : string) (level : Z) (r : Resource) : bool :=
  String.eqb (file_type r) "csv" && resource_name_match iso level (name r).

(** The year tokens of all names, in order: [sum(yearmatches, [])]. *)
Definition year_tokens (pop_resource : list Resource) : list string :=
  List.concat (map (fun r => findall_year (name r)) pop_resource).

(** Lines 46-57: the body of [if len(pop_resource) > 1]. *)
Definition narrow_by_year (pop_resource : list Resource)
  : result (list Resource) :=
  let yearmatches := map int (year_tokens pop_resource) in
  match py_max yearmatches with
  | Raise e => Raise e
  | Ok m =>
      let maxyear := filter (fun r => contains (str m) (name r)) pop_resource in
      if (List.length maxyear =? 1)%nat then Ok maxyear else Ok pop_resource
  end.

Definition dataset_name (iso : string) : string :=
  match dict_get (dataset_exceptions cfg) iso with
  | Some n => n
  | None => "cod-ps-" ++ lower iso
  end.

Definition fallback_name (iso : string) : string :=
  "worldpop-population-counts-for-" ++ country_slug env iso.

Definition find_resource (iso : string) (level : Z)
  : list log_entry * result (option Resource * kind) :=
  match read_from_hdx env (dataset_name iso) with
  | None =>
      let log := [(Warning, iso ++ ": Could not find PS dataset")] in
      match read_from_hdx env (fallback_name iso) with
      | None => (log, Raise AttributeError)
      | Some dataset =>
          match filter is_constrained_geotiff (get_resources dataset) with
          | [] => (log, Ok (None, Geotiff))
          | r :: _ => (log, Ok (Some r, Geotiff))
          end
      end
  | Some dataset =>
      let pop_resource := filter (is_level_csv iso level) (get_resources dataset) in
      if (List.length pop_resource =? 0)%nat then
        ([(Warning, iso ++ ": Could not find csv resource at adm" ++ str level)],
         Ok (None, Geotiff))
      else
        match (if (1 <? List.length pop_resource)%nat
               then narrow_by_year pop_resource
               else Ok pop_resource) with
        | Raise e => ([], Raise e)
        | Ok pop_resource' =>
            let log :=
              if (1 <? List.length pop_resource')%nat
              then [(Warning, iso ++ ": Found multiple resources, using first in list")]
              else [] in
            match pop_resource' with
            | r :: _ => (log, Ok (Some r, Csv))
            | [] => (log, Raise IndexError)
            end
        end
  end.

(** ** [analyze_raster] *)

Definition boundaries : Type := list BoundaryRecord.

(** [(self.boundaries["alpha_3"] == iso) & (self.boundaries["ADM_LEVEL"] == level)]. *)
Definition in_scope (iso : string) (level : Z) (r : PopulationRow) : bool :=
  String.eqb (alpha_3 r) iso && (ADM_LEVEL r =? level).

(** [self.boundaries.loc[self.boundaries["ADM_PCODE"] == pcode, "Population"] = pop]. *)
Definition loc_set_Population (pcode : string) (pop : cell) (B : boundaries)
  : boundaries :=
  map (fun r : BoundaryRecord =>
         if String.eqb (ADM_PCODE r) pcode then set_Population pop r else r) B.

(** [zonal_stats(vectors=..., raster=pop_raster, stats="sum", geojson_out=True)]:
    one feature per selected row, in order, with its properties and the sum. *)
Definition zonal_stats (vectors : boundaries) (pop_raster : string)
  : list (string * option float64) :=
  map (fun r : BoundaryRecord =>
         (ADM_PCODE r, zonal_sum env pop_raster (geometry r))) vectors.

(** Lines 79-83: the body of [for row in pop_stats]. *)
Definition raster_row (B : boundaries) (feature : string * option float64)
  : boundaries :=
  let (pcode, pop) := feature in
  match pop with
  | None => B
  | Some x =>
      if float_truthy x then loc_set_Population pcode (CInt (int_round x)) B
      else B
  end.

Definition analyze_raster (B : boundaries) (resource : Resource)
    (iso : string) (level : Z)
  : list log_entry * boundaries * option string :=
  match download resource with
  | None => ([(Error, iso ++ ": Could not download geotiff")], B, None)
  | Some pop_raster =>
      let vectors := filter (fun r : BoundaryRecord => in_scope iso level r) B in
      let pop_stats := zonal_stats vectors pop_raster in
      ([], fold_left raster_row pop_stats B, Some iso)
  end.

(** ** [analyze_tabular] *)

(** [bool(h)] of a header variable: [None] and [""] are false. *)
Definition truthy (h : option string) : bool :=
  match h with
  | None => false
  | Some s => negb (String.eqb s "")
  end.

(** [[h.replace("#", str(level)) for h in self.headers]]. *)
Definition pcode_templates (level : Z) : list string :=
  map (replace_hash (str level)) (pcode_mappings cfg).

(** Lines 95-100: the body of [for header in headers]. *)
Definition header_step (level : Z) (st : option string * option string)
    (header : string) : option string * option string :=
  let (pcode_header, pop_header) := st in
  (if negb (truthy pcode_header) then
     if str_in (upper header) (pcode_templates level) then Some header
     else pcode_header
   else pcode_header,
   if negb (truthy pop_header) then
     if String.eqb (upper header) "T_TL" then Some header else pop_header
   else pop_header).

Definition resolve_headers (level : Z) (headers : list string)
  : option string * option string :=
  fold_left (header_step level) headers (None, None).

(** [pcode == p] for a cell [pcode] and a string [p] of the pcode column. *)
Definition cell_is (pcode : cell) (p : string) : bool :=
  match pcode with
  | CStr s => String.eqb p s
  | _ => false
  end.

(** [pcode in list(self.boundaries["ADM_PCODE"])]. *)
Definition pcode_known (pcode : cell) (B : boundaries) : bool :=
  existsb (cell_is pcode) (map (fun r : BoundaryRecord => ADM_PCODE r) B).

(** [self.boundaries.loc[self.boundaries["ADM_PCODE"] == pcode, "Population"] = pop]
    for a cell [pcode]. *)
Definition loc_set_Population_cell (pcode pop : cell) (B : boundaries)
  : boundaries :=
  map (fun r : BoundaryRecord =>
         if cell_is pcode (ADM_PCODE r) then set_Population pop r else r) B.

(** [f"{pcode}"]. *)
Definition cell_text (c : cell) : string :=
  match c with
  | CNull => "None"
  | CInt z => str z
  | CStr s => s
  end.

(** The state of the row loop: the frame, the log, [updated]. *)
Definition tabular_state : Type := (boundaries * list log_entry * bool)%type.

(** Lines 111-117: the body of [for row in iterator]. *)
Definition tabular_row (iso : string) (level : Z)
    (pcode_header pop_header : string) (st : tabular_state) (r : row)
  : tabular_state :=
  let '(B, log, updated) := st in
  let pcode := r pcode_header in
  let pop := r pop_header in
  if negb (pcode_known pcode B) then
    (B,
     emit log Warning (iso ++ ": Could not find unit " ++ cell_text pcode
                           ++ " in boundaries at adm" ++ str level),
     updated)
  else (loc_set_Population_cell pcode pop B, log, true).

Definition header_text (h : option string) : string :=
  match h with Some s => s | None => "" end.

Definition analyze_tabular (B : boundaries) (resource : Resource)
    (iso : string) (level : Z)
  : list log_entry * boundaries * option string :=
  let (headers, iterator) := get_tabular_rows env (url resource) in
  let (pcode_header, pop_header) := resolve_headers level headers in
  if negb (truthy pcode_header) then
    ([(Error, iso ++ ": Could not find pcode header at adm" ++ str level)], B, None)
  else if negb (truthy pop_header) then
    ([(Error, iso ++ ": Could not find pop header at adm" ++ str level)], B, None)
  else
    let '(B', log, updated) :=
      fold_left (tabular_row iso level (header_text pcode_header) (header_text pop_header))
                iterator (B, [], false) in
    if negb updated then (log, B', None) else (log, B', Some iso).

(** ** [update_population] *)

(** [updated_countries]: a dict from level to the list of countries, as its
    items in insertion order. *)
Definition updated_map : Type := list (Z * list string).

Definition level_in (level : Z) (uc : updated_map) : bool :=
  existsb (fun e => fst e =? level) uc.

(** [updated_countries[level]]. *)
Fixpoint uc_get (uc : updated_map) (level : Z) : list string :=
  match uc with
  | [] => []
  | (l, isos) :: uc' => if l =? level then isos else uc_get uc' level
  end.

(** [updated_countries[level].append(iso)]. *)
Fixpoint uc_append (uc : updated_map) (level : Z) (iso : string) : updated_map :=
  match uc with
  | [] => []
  | (l, isos) :: uc' =>
      if l =? level then (l, List.app isos [iso]) :: uc'
      else (l, isos) :: uc_append uc' level iso
  end.

(** [set.add]: a set of levels kept in ascending order, which is the order
    CPython iterates a set of small non-negative integers in. *)
Fixpoint set_add (x : Z) (s : list Z) : list Z :=
  match s with
  | [] => [x]
  | y :: s' =>
      if x <? y then x :: y :: s'
      else if x =? y then y :: s'
      else y :: set_add x s'
  end.

(** [list(set(self.boundaries["ADM_LEVEL"].loc[self.boundaries["alpha_3"] == iso]))]. *)
Definition levels_of (B : boundaries) (iso : string) : list Z :=
  fold_left (fun s (r : BoundaryRecord) => set_add (ADM_LEVEL r) s)
            (filter (fun r : BoundaryRecord => String.eqb (alpha_3 r) iso) B) [].

(** What the run has built so far: the frame, the log, the dict. *)
Record run_state : Type := mkRun {
  frame : boundaries;
  run_log : list log_entry;
  updated_countries : updated_map
}.

(** Lines 127-147: the body of [for level in levels]; [Some e] when the
    body raises [e]. *)
Definition process_pair (st : run_state) (iso : string) (level : Z)
  : run_state * option exn :=
  let uc1 :=
    if level_in level (updated_countries st) then updated_countries st
    else List.app (updated_countries st) [(level, [])] in
  let log1 := emit (run_log st) Info
                (iso ++ ": Processing population at adm" ++ str level) in
  let (flog, found) := find_resource iso level in
  let log2 := List.app log1 flog in
  match found with
  | Raise e => (mkRun (frame st) log2 uc1, Some e)
  | Ok (None, resource_type) =>
      (mkRun (frame st)
             (emit log2 Error
                (iso ++ ": Could not find any " ++ kind_name resource_type
                     ++ " data at adm" ++ str level))
             uc1,
       None)
  | Ok (Some resource, resource_type) =>
      let '(alog, B', updated) :=
        match resource_type with
        | Geotiff => analyze_raster (frame st) resource iso level
        | Csv => analyze_tabular (frame st) resource iso level
        end in
      let uc2 :=
        if truthy updated && negb (str_in iso (uc_get uc1 level))
        then uc_append uc1 level iso else uc1 in
      (mkRun B' (List.app log2 alog) uc2, None)
  end.

Fixpoint process_levels (st : run_state) (iso : string) (levels : list Z)
  : run_state * option exn :=
  match levels with
  | [] => (st, None)
  | level :: levels' =>
      match process_pair st iso level with
      | (st', None) => process_levels st' iso levels'
      | (st', Some e) => (st', Some e)
      end
  end.

Fixpoint process_countries (st : run_state) (countries : list string)
  : run_state * option exn :=
  match countries with
  | [] => (st, None)
  | iso :: countries' =>
      match process_levels st iso (levels_of (frame st) iso) with
      | (st', None) => process_countries st' countries'
      | (st', Some e) => (st', Some e)
      end
  end.

(** The frame and the log after the call, and what the call returns. *)
Definition update_population (B : boundaries) (countries : list string)
  : boundaries * list log_entry * result updated_map :=
  match process_countries (mkRun B [] []) countries with
  | (st, None) => (frame st, run_log st, Ok (updated_countries st))
  | (st, Some e) => (frame st, run_log st, Raise e)
  end.

(** ** [update_hdx_resource] *)

Definition table : Type := list PopulationRow.

Definition with_label (i : Z) (r : PopulationRow) : PopulationRow :=
  mkRow i (alpha_3 r) (ADM_LEVEL r) (ADM_PCODE r) (Population r) (other r).

Fixpoint reindex_from (i : Z) (t : table) : table :=
  match t with
  | [] => []
  | r :: t' => with_label i r :: reindex_from (i + 1) t'
  end.

(** [read_csv(path)]: the parsed records under the default index 0, 1, ... *)
Definition read_csv (path : string) : table := reindex_from 0 (csv_rows env path).

(** [self.boundaries.drop(columns="geometry")]. *)
Definition drop_geometry (B : boundaries) : table := map attrs B.

(** [(t["alpha_3"].isin(isos)) & (t["ADM_LEVEL"] == level)]. *)
Definition slice_mask (level : Z) (isos : list string) (r : PopulationRow) : bool :=
  str_in (alpha_3 r) isos && (ADM_LEVEL r =? level).

(** [t.drop(labels, inplace=True)]: every row whose index label is listed
    goes, however many rows carry that label. *)
Definition drop_labels (labels : list Z) (t : table) : table :=
  filter (fun r => negb (existsb (Z.eqb (label r)) labels)) t.

(** Lines 167-171: the body of [for level in updated_countries].
    [concat] keeps the index labels of both frames. *)
Definition merge_level (updated_data : table) (pop_data : table)
    (entry : Z * list string) : table :=
  let (level, isos) := entry in
  let labels := map label (filter (slice_mask level isos) pop_data) in
  List.app (drop_labels labels pop_data)
           (filter (slice_mask level isos) updated_data).

(** The order of [sort_values(by=["alpha_3", "ADM_LEVEL", "ADM_PCODE"])]. *)
Definition key_compare (a b : PopulationRow) : comparison :=
  match String.compare (alpha_3 a) (alpha_3 b) with
  | Eq =>
      match Z.compare (ADM_LEVEL a) (ADM_LEVEL b) with
      | Eq => String.compare (ADM_PCODE a) (ADM_PCODE b)
      | c => c
      end
  | c => c
  end.

Definition key_leb (a b : PopulationRow) : bool :=
  match key_compare a b with Gt => false | _ => true end.

Fixpoint insert_row (r : PopulationRow) (t : table) : table :=
  match t with
  | [] => [r]
  | r' :: t' => if key_leb r r' then r :: r' :: t' else r' :: insert_row r t'
  end.

(** [sort_values]: a stable sort on the three keys. *)
Fixpoint sort_values (t : table) : table :=
  match t with
  | [] => []
  | r :: t' => insert_row r (sort_values t')
  end.

(** Lines 165-173, once the prior table is loaded. *)
Definition merge_tables (B : boundaries) (pop_data : table) (uc : updated_map)
  : table :=
  sort_values (fold_left (merge_level (drop_geometry B)) uc pop_data).

Definition update_hdx_resource (B : boundaries) (overall_name : string)
    (uc : updated_map)
  : list log_entry * result (option (table * Resource)) :=
  match read_from_hdx env overall_name with
  | None => ([(Error, "Could not find overall pop dataset")], Ok None)
  | Some dataset =>
      match get_resources dataset with
      | [] => ([], Raise IndexError)
      | resource :: _ =>
          match download resource with
          | None => ([(Error, "Could not download population csv")], Ok None)
          | Some path => ([], Ok (Some (merge_tables B (read_csv path) uc, resource)))
          end
      end
  end.

End Population.

(* ================================================================== *)
(** * Concrete inputs *)
(* ================================================================== *)

(** The configuration of the examples: no overrides, three pcode templates. *)
Definition cfg_default : Configuration :=
  mkConfiguration [] [] ["ADM#_PCODE"; "ADMIN#PCODE"; "ADM#PCODE"] [].

(** Collaborators over a catalog [cat] given as (name, dataset) pairs, a row
    streamer [rows], a zonal statistic [zs] and the parsed prior table [csv]. *)
Definition world (cat : list (string * Dataset))
    (rows : string -> list string * list row)
    (zs : string -> string -> option float64)
    (csv : string -> list PopulationRow) : Collaborators :=
  mkCollaborators (dict_get cat) lower (fun _ _ => false) rows zs csv.

Definition no_rows (u : string) : list string * list row := ([], []).
Definition no_sum (raster g : string) : option float64 := None.
Definition no_csv (path : string) : list PopulationRow := [].

Definition catalog_world (cat : list (string * Dataset)) : Collaborators :=
  world cat no_rows no_sum no_csv.

Definition csv_resource (n : string) : Resource :=
  mkResource n "csv" ("https://data.example/" ++ n) (Some ("/tmp/" ++ n)).

(** A catalog that knows no dataset at all. *)
Definition env_empty : Collaborators := catalog_world [].

(** Two level-1 tables, neither name carries a year. *)
Definition env_no_year : Collaborators :=
  catalog_world
    [("cod-ps-aaa",
      mkDataset [csv_resource "aaa_adm1_a.csv"; csv_resource "aaa_adm1_b.csv"])].

(** Two level-1 tables, for 2019 and for 2021. *)
Definition env_two_years : Collaborators :=
  catalog_world
    [("cod-ps-aaa",
      mkDataset [csv_resource "aaa_adm1_2019.csv"; csv_resource "aaa_adm1_2021.csv"])].

(** Three level-1 tables: one for 2019, then two for 2021. *)
Definition env_year_tie : Collaborators :=
  catalog_world
    [("cod-ps-aaa",
      mkDataset [csv_resource "aaa_adm1_2019.csv";
                 csv_resource "aaa_adm1_2021_a.csv";
                 csv_resource "aaa_adm1_2021_b.csv"])].

Definition boundary (lbl : Z) (iso : string) (level : Z) (pcode : string)
    (pop : cell) (geom : string) : BoundaryRecord :=
  mkBoundary (mkRow lbl iso level pcode pop []) geom.

(** The double nearest to 1234.4, then 2.5 and 0.0. *)
Definition x_1234_4 : float64 := mkFloat 2714474306653389 (-41).
Definition x_2_5 : float64 := mkFloat 5 (-1).
Definition x_zero : float64 := mkFloat 0 0.

Definition sums_by_geometry (raster g : string) : option float64 :=
  if String.eqb g "POLYGON A" then Some x_1234_4
  else if String.eqb g "POLYGON C" then Some x_zero
  else if String.eqb g "POLYGON D" then Some x_2_5
  else None.

Definition env_raster : Collaborators := world [] no_rows sums_by_geometry no_csv.

Definition tif : Resource :=
  mkResource "2020_constrained.tif" "geotiff" "https://data.example/2020.tif"
             (Some "/tmp/2020_constrained.tif").

Definition tif_unreachable : Resource :=
  mkResource "2020_constrained.tif" "geotiff" "https://data.example/2020.tif" None.

(** Level 1 of AAA: a polygon summing to 1234.4, one with no covered cell,
    one summing to zero; a level-2 unit; a level-3 unit summing to zero. *)
Definition B_raster : boundaries :=
  [boundary 0 "AAA" 1 "A01" CNull "POLYGON A";
   boundary 1 "AAA" 1 "A02" CNull "POLYGON B";
   boundary 2 "AAA" 1 "A03" (CInt 7) "POLYGON C";
   boundary 3 "AAA" 2 "A0101" CNull "POLYGON A";
   boundary 4 "AAA" 3 "A010101" CNull "POLYGON C"].

(** One polygon summing to 2.5. *)
Definition B_half : boundaries := [boundary 0 "AAA" 1 "A04" CNull "POLYGON D"].

(** A streamed row given by its items; a header outside the row reads null. *)
Definition row_of (items : list (string * cell)) : row :=
  fun h => match dict_get items h with Some c => c | None => CNull end.

(** Kenya: one level-1 unit and one level-2 unit. *)
Definition B_ken : boundaries :=
  [boundary 0 "KEN" 1 "KE01" CNull "POLYGON A";
   boundary 1 "KEN" 2 "KE0101" CNull "POLYGON B"].

Definition ken_adm1 : Resource := csv_resource "ken_adm1_2019.csv".
Definition ken_adm2 : Resource := csv_resource "ken_adm2_2019.csv".
Definition ken_adm3 : Resource := csv_resource "ken_adm3_2019.csv".

(** The level-1 table of the specification's example; a level-2 table whose
    only row carries the level-1 pcode; a level-3 table without a pcode
    column. *)
Definition ken_tables (u : string) : list string * list row :=
  if String.eqb u (url ken_adm1) then
    (["ADM1PCODE"; "T_TL"],
     [row_of [("ADM1PCODE", CStr "KE01"); ("T_TL", CStr "500000")]])
  else if String.eqb u (url ken_adm2) then
    (["ADM2_PCODE"; "T_TL"],
     [row_of [("ADM2_PCODE", CStr "KE01"); ("T_TL", CStr "900")]])
  else if String.eqb u (url ken_adm3) then
    (["NAME"; "T_TL"],
     [row_of [("NAME", CStr "Nairobi"); ("T_TL", CStr "1")]])
  else ([], []).

Definition env_ken : Collaborators :=
  world [("cod-ps-ken", mkDataset [ken_adm1; ken_adm2; ken_adm3])]
        ken_tables no_sum no_csv.

(** Two countries with one level-1 unit each.  The catalog knows a level-1
    table for BBB and no dataset at all for AAA. *)
Definition B_two : boundaries :=
  [boundary 0 "AAA" 1 "A01" CNull "POLYGON A";
   boundary 1 "BBB" 1 "B01" CNull "POLYGON B"].

Definition bbb_adm1 : Resource := csv_resource "bbb_adm1_2020.csv".

Definition bbb_tables (u : string) : list string * list row :=
  if String.eqb u (url bbb_adm1) then
    (["ADM1_PCODE"; "T_TL"],
     [row_of [("ADM1_PCODE", CStr "B01"); ("T_TL", CStr "42")]])
  else ([], []).

Definition env_bbb : Collaborators :=
  world [("cod-ps-bbb", mkDataset [bbb_adm1])] bbb_tables no_sum no_csv.

(** The overall table of an earlier run, as parsed from its file (sorted by
    country, level and pcode; [read_csv] sets the labels 0 to 4), and a
    boundary frame that lists the level-1 units before the level-2 units. *)
Definition overall_csv : Resource := csv_resource "population.csv".

Definition prior_rows (path : string) : list PopulationRow :=
  [mkRow 0 "AAA" 1 "A1" (CInt 10) [];
   mkRow 0 "AAA" 2 "A2" (CInt 20) [];
   mkRow 0 "BBB" 1 "B1" (CInt 30) [];
   mkRow 0 "BBB" 2 "B2" (CInt 40) [];
   mkRow 0 "CCC" 1 "C1" (CInt 50) []].

Definition B_levels : boundaries :=
  [boundary 0 "AAA" 1 "A1" (CInt 11) "POLYGON A";
   boundary 1 "BBB" 1 "B1" (CInt 31) "POLYGON B";
   boundary 2 "AAA" 2 "A2" (CInt 21) "POLYGON C";
   boundary 3 "BBB" 2 "B2" (CInt 41) "POLYGON D"].

Definition env_overall : Collaborators :=
  world [("overall-population", mkDataset [overall_csv])] no_rows no_sum prior_rows.

(** Both countries were updated at both levels. *)
Definition uc_both : updated_map := [(1, ["AAA"; "BBB"]); (2, ["AAA"; "BBB"])].

(** The same boundary rows under index labels that no prior row carries. *)
Definition B_apart : boundaries :=
  [boundary 100 "AAA" 1 "A1" (CInt 11) "POLYGON A";
   boundary 101 "BBB" 1 "B1" (CInt 31) "POLYGON B";
   boundary 102 "AAA" 2 "A2" (CInt 21) "POLYGON C";
   boundary 103 "BBB" 2 "B2" (CInt 41) "POLYGON D"].

(** The specification's end-to-end example: Kenya, level 1 only. *)
Definition B_ken_level1 : boundaries :=
  [boundary 0 "KEN" 1 "KE01" CNull "POLYGON A"].

Definition env_ken_level1 : Collaborators :=
  world [("cod-ps-ken", mkDataset [ken_adm1])] ken_tables no_sum no_csv.

(* ================================================================== *)
(** * The specification's wording *)
(* ================================================================== *)

(** Definitions that follow the words of the specification, to be compared
    with the definitions above, which follow the code. *)

(** The selection as the specification words it: among several matches keep
    the entries whose name holds the greatest year and return the first of
    them. *)
Definition spec_select_by_year (matching : list Resource) : option Resource :=
  match py_max (map int (year_tokens matching)) with
  | Ok m => hd_error (filter (fun r => contains (str m) (name r)) matching)
  | Raise _ => None
  end.

(** [z] is the integer nearest to [x], a tie going to the even neighbour.
    For a negative exponent [x = mant / d] with [d = 2 ^ (- expo)], and
    [|x - z| <= 1/2] is written after multiplying by [2 * d]. *)
Definition nearest_even (x : float64) (z : Z) : Prop :=
  if 0 <=? expo x then z = mant x * 2 ^ expo x
  else
    let d := 2 ^ (- expo x) in
    2 * Z.abs (mant x - z * d) <= d
    /\ (2 * Z.abs (mant x - z * d) = d -> Z.even z = true).

(** [z] is [x] rounded half up: [z - 1/2 <= x < z + 1/2]. *)
Definition nearest_half_up (x : float64) (z : Z) : Prop :=
  if 0 <=? expo x then z = mant x * 2 ^ expo x
  else
    let d := 2 ^ (- expo x) in
    - d <= 2 * (mant x - z * d) < d.

(** The pcode role is resolved: some header, read in upper case, is one of
    the configured templates with the level in the placeholder. *)
Definition pcode_role_resolved (cfg : Configuration) (level : Z)
    (headers : list string) : Prop :=
  exists h, In h headers /\ h <> "" /\ In (upper h) (pcode_templates cfg level).

(** The population role is resolved: some header reads [T_TL] in upper case. *)
Definition pop_role_resolved (headers : list string) : Prop :=
  exists h, In h headers /\ upper h = "T_TL".

(** The rows of the merged table as the specification words them: the prior
    rows outside every updated (country set, level) slice, then the fresh
    boundary rows of each slice. *)
Definition in_some_slice (uc : updated_map) (r : PopulationRow) : bool :=
  existsb (fun e => slice_mask (fst e) (snd e) r) uc.

Definition spec_merged_rows (B : boundaries) (prior : table) (uc : updated_map)
  : table :=
  List.app
    (filter (fun r => negb (in_some_slice uc r)) prior)
    (List.concat
       (map (fun e => filter (slice_mask (fst e) (snd e)) (drop_geometry B)) uc)).

(** Every row of [B'] is the row of [B] in the same place, up to its
    population. *)
Definition only_population_changed (B B' : boundaries) : Prop :=
  Forall2 (fun r r' : BoundaryRecord => r' = set_Population (Population r') r) B B'.

(** The (country, level) pairs of a run, in the order of the two loops. *)
Definition pairs_of (B : boundaries) (countries : list string) : list (string * Z) :=
  flat_map (fun iso => map (pair iso) (levels_of B iso)) countries.



(** The aggregator chosen for the pair reports success on the frame [B]:
    a resource is found and the aggregator returns a true value. *)
Definition pair_succeeds (env : Collaborators) (cfg : Configuration)
    (B : boundaries) (iso : string) (level : Z) : Prop :=
  exists flog resource resource_type,
    find_resource env cfg iso level = (flog, Ok (Some resource, resource_type))
    /\ truthy (snd (match resource_type with
                    | Geotiff => analyze_raster env B resource iso level
                    | Csv => analyze_tabular env cfg B resource iso level
                    end)) = true.

(* ================================================================== *)
(** * Loops read row by row *)
(* ================================================================== *)

(** What a loop over the frame does to one row of it; the proofs go through
    these readings. *)

(** One feature of [pop_stats] seen from one row of the frame. *)
Definition apply_feature (feature : string * option float64)
    (rec : BoundaryRecord) : BoundaryRecord :=
  match snd feature with
  | Some x =>
      if float_truthy x && String.eqb (ADM_PCODE rec) (fst feature)
      then set_Population (CInt (int_round x)) rec else rec
  | None => rec
  end.

(** What [analyze_raster] leaves in the place of a row when pcodes are
    unique. *)
Definition stored_by_raster (env : Collaborators) (iso : string) (level : Z)
    (pop_raster : string) (rec : BoundaryRecord) : BoundaryRecord :=
  if in_scope iso level rec then
    match zonal_sum env pop_raster (geometry rec) with
    | Some x =>
        if float_truthy x then set_Population (CInt (int_round x)) rec else rec
    | None => rec
    end
  else rec.

(** One streamed row seen from one row of the frame. *)
Definition apply_row (pcode_header pop_header : string) (r : row)
    (rec : BoundaryRecord) : BoundaryRecord :=
  if cell_is (r pcode_header) (ADM_PCODE rec)
  then set_Population (r pop_header) rec else rec.

(** The warning of line 114 for the row [r]. *)
Definition row_warning (iso : string) (level : Z) (pcode_header : string)
    (r : row) : log_entry :=
  (Warning, iso ++ ": Could not find unit " ++ cell_text (r pcode_header)
                ++ " in boundaries at adm" ++ str level).

(** The last streamed row whose pcode cell is the pcode [p]. *)
Fixpoint last_row_for (pcode_header p : string) (rows : list row) : option row :=
  match rows with
  | [] => None
  | r :: rows' =>
      match last_row_for pcode_header p rows' with
      | Some r' => Some r'
      | None => if cell_is (r pcode_header) p then Some r else None
      end
  end.

(** Two comparisons, one after the other: the second decides when the first
    says equal. *)
Definition lex {A B : Type} (ca : A -> A -> comparison) (cb : B -> B -> comparison)
    (x y : A * B) : comparison :=
  match ca (fst x) (fst y) with
  | Eq => cb (snd x) (snd y)
  | c => c
  end.

(** A comparison of a total order. *)
Definition compare_ok {A : Type} (c : A -> A -> comparison) : Prop :=
  (forall x y, c x y = Eq -> x = y)
  /\ (forall x, c x x = Eq)
  /\ (forall x y z, c x y = Lt -> c y z = Lt -> c x z = Lt)
  /\ (forall x y, c y x = CompOpp (c x y)).

(** The three sort keys of a row. *)
Definition sort_key (r : PopulationRow) : string * (Z * string) :=
  (alpha_3 r, (ADM_LEVEL r, ADM_PCODE r)).

(** [a] is not after [b] in the order of the three keys. *)
Definition key_le (a b : PopulationRow) : Prop := key_leb a b = true.

(** Writing a population that is decided row by row. *)
Definition assign (c : BoundaryRecord -> option cell) (r : BoundaryRecord)
  : BoundaryRecord :=
  match c r with
  | Some v => set_Population v r
  | None => r
  end.

(** A decision that does not look at the population of the row. *)
Definition blind (c : BoundaryRecord -> option cell) : Prop :=
  forall (w : cell) (r : BoundaryRecord), c (set_Population w r) = c r.

(** The later decision where it decides, the earlier one elsewhere. *)
Definition over (c2 c1 : BoundaryRecord -> option cell) (r : BoundaryRecord)
  : option cell :=
  match c2 r with
  | Some v => Some v
  | None => c1 r
  end.

(** The population that the features write for the pcode [p]: that of the
    last feature with that pcode and a non-zero sum. *)
Fixpoint feature_value (feats : list (string * option float64)) (p : string)
  : option cell :=
  match feats with
  | [] => None
  | f :: feats' =>
      match feature_value feats' p with
      | Some v => Some v
      | None =>
          match snd f with
          | Some x =>
              if float_truthy x && String.eqb p (fst f)
              then Some (CInt (int_round x)) else None
          | None => None
          end
      end
  end.



(* ================================================================== *)
(** * Properties *)
(* ================================================================== *)

(** ** Lists and maxima *)

Lemma fold_left_max_ge (l : list Z) (a : Z) : a <= fold_left Z.max l a.
Proof.
  revert a; induction l as [|x l IH]; intro a; simpl; [lia|].
  specialize (IH (Z.max a x)); lia.
Qed.

Lemma fold_left_max_ub (l : list Z) (a y : Z) :
  In y l -> y <= fold_left Z.max l a.
Proof.
  revert a; induction l as [|x l IH]; intros a Hy; simpl; [contradiction|].
  destruct Hy as [->|Hy].
  - pose proof (fold_left_max_ge l (Z.max a y)); lia.
  - now apply IH.
Qed.

Lemma fold_left_max_in (l : list Z) (a : Z) :
  fold_left Z.max l a = a \/ In (fold_left Z.max l a) l.
Proof.
  revert a; induction l as [|x l IH]; intro a; simpl; [now left|].
  destruct (IH (Z.max a x)) as [E|E].
  - rewrite E. destruct (Z.max_spec a x) as [[_ ->]|[_ ->]]; auto.
  - auto.
Qed.

(** [max] of a list returns its greatest member. *)
Lemma py_max_greatest (l : list Z) (m : Z) :
  In m l -> (forall y, In y l -> y <= m) -> py_max l = Ok m.
Proof.
  destruct l as [|x xs]; [contradiction|]; intros Hin Hub; simpl py_max.
  f_equal. apply Z.le_antisymm.
  - apply Hub. destruct (fold_left_max_in xs x) as [->|H]; [now left|now right].
  - destruct Hin as [->|Hin]; [apply fold_left_max_ge|now apply fold_left_max_ub].
Qed.

Lemma py_max_raises (l : list Z) (e : exn) :
  py_max l = Raise e -> l = [] /\ e = ValueError.
Proof. destruct l; simpl; intro H; inversion H; auto. Qed.

(** ** [find_resource] *)

(** C1 (the code raises where the specification promises a result).  With neither
    the population dataset nor the gridded fallback in the catalog,
    [find_resource] logs the missing dataset and then raises
    [AttributeError] (line 31 calls [get_resources] on [None]): it does not
    return [(None, "geotiff")]. *)
Theorem find_resource_raises_without_any_dataset :
  find_resource env_empty cfg_default "AAA" 1
  = ([(Warning, "AAA: Could not find PS dataset")], Raise AttributeError).
Proof. reflexivity. Qed.

(** The second raising path: several level tables and no year in any name
    make line 54 evaluate [max([])]. *)
Lemma find_resource_raises_without_year :
  find_resource env_no_year cfg_default "AAA" 1 = ([], Raise ValueError).
Proof. vm_compute. reflexivity. Qed.

(** X1.  [find_resource] raises exactly on those two paths: neither dataset
    is in the catalog, or the dataset is found, several tables match the level
    pattern and no name holds a 4-digit year.  On every other input it
    returns. *)
Lemma find_resource_raise_iff (env : Collaborators) (cfg : Configuration)
    (iso : string) (level : Z) :
  (exists e, snd (find_resource env cfg iso level) = Raise e)
  <->
  (read_from_hdx env (dataset_name cfg iso) = None
   /\ read_from_hdx env (fallback_name env iso) = None)
  \/ (exists dataset,
        read_from_hdx env (dataset_name cfg iso) = Some dataset
        /\ (1 < List.length (filter (is_level_csv env cfg iso level)
                                    (get_resources dataset)))%nat
        /\ year_tokens (filter (is_level_csv env cfg iso level)
                               (get_resources dataset)) = []).
Proof.
  unfold find_resource.
  destruct (read_from_hdx env (dataset_name cfg iso)) as [dataset|] eqn:Hd.
  - set (m := filter (is_level_csv env cfg iso level) (get_resources dataset)).
    split.
    + intros [e He]. right. exists dataset. split; [reflexivity|].
      destruct (List.length m =? 0)%nat eqn:H0; [simpl in He; discriminate|].
      destruct (1 <? List.length m)%nat eqn:H1.
      * apply Nat.ltb_lt in H1. split; [exact H1|].
        unfold narrow_by_year in He.
        destruct (py_max (map int (year_tokens m))) as [y|e'] eqn:Hmax.
        -- exfalso.
           destruct (List.length (filter (fun r => contains (str y) (name r)) m) =? 1)%nat eqn:H2.
           ++ destruct (filter (fun r => contains (str y) (name r)) m) as [|r rs];
                simpl in H2; [discriminate|].
              simpl in He.
              destruct (1 <? S (List.length rs))%nat; simpl in He; discriminate.
           ++ destruct m as [|r rs]; [simpl in H0; discriminate|].
              destruct (1 <? List.length (r :: rs))%nat; simpl in He; discriminate.
        -- apply py_max_raises in Hmax. destruct Hmax as [Hnil _].
           now apply map_eq_nil in Hnil.
      * exfalso. destruct m as [|r rs]; [simpl in H0; discriminate|].
        rewrite H1 in He. simpl in He. discriminate.
    + intros [[Hnone _]|[d' [Hd' [Hlen Hy]]]]; [discriminate|].
      inversion Hd'; subst d'. fold m in Hlen, Hy.
      destruct (List.length m =? 0)%nat eqn:H0;
        [apply Nat.eqb_eq in H0; lia|].
      apply Nat.ltb_lt in Hlen. rewrite Hlen.
      unfold narrow_by_year. rewrite Hy. simpl. eauto.
  - split.
    + intros [e He]. left. split; [reflexivity|].
      destruct (read_from_hdx env (fallback_name env iso)) as [d|]; [|reflexivity].
      exfalso.
      destruct (filter is_constrained_geotiff (get_resources d)); simpl in He; discriminate.
    + intros [[_ Hf]|[d [Hd' _]]]; [|discriminate].
      rewrite Hf. simpl. eauto.
Qed.

(** C2 as stated fails: with one table for 2019 followed by two tables for
    2021 the greatest year found is 2021, the specification's selection is the
    first 2021 table, and [find_resource] returns the 2019 table, whose name
    does not hold 2021. *)
Lemma find_resource_year_tie_returns_older :
  let matching :=
    filter (is_level_csv env_year_tie cfg_default "AAA" 1)
           [csv_resource "aaa_adm1_2019.csv";
            csv_resource "aaa_adm1_2021_a.csv";
            csv_resource "aaa_adm1_2021_b.csv"] in
  List.length matching = 3%nat
  /\ py_max (map int (year_tokens matching)) = Ok 2021
  /\ spec_select_by_year matching = Some (csv_resource "aaa_adm1_2021_a.csv")
  /\ snd (find_resource env_year_tie cfg_default "AAA" 1)
     = Ok (Some (csv_resource "aaa_adm1_2019.csv"), Csv)
  /\ contains "2021" (name (csv_resource "aaa_adm1_2019.csv")) = false
  /\ snd (find_resource env_year_tie cfg_default "AAA" 1)
     <> Ok (spec_select_by_year matching, Csv).
Proof.
  vm_compute. repeat split; discriminate.
Qed.

(** C2, amended.  When the dataset is found, more than one table matches the
    level pattern and [m] is the greatest year token of their names:
    - if exactly one matching table has [str m] in its name, that table is
      returned and no warning is logged;
    - otherwise (none, or two and more) the first matching table in the
      catalog's order is returned and the warning is logged. *)
Theorem find_resource_several_tables (env : Collaborators) (cfg : Configuration)
    (iso : string) (level : Z) (dataset : Dataset)
    (matching maxyear : list Resource) (m : Z) :
  read_from_hdx env (dataset_name cfg iso) = Some dataset ->
  matching = filter (is_level_csv env cfg iso level) (get_resources dataset) ->
  (1 < List.length matching)%nat ->
  In m (map int (year_tokens matching)) ->
  (forall y, In y (map int (year_tokens matching)) -> y <= m) ->
  maxyear = filter (fun r => contains (str m) (name r)) matching ->
  (forall r, maxyear = [r] ->
     find_resource env cfg iso level = ([], Ok (Some r, Csv)))
  /\ (List.length maxyear <> 1%nat ->
     find_resource env cfg iso level
     = ([(Warning, iso ++ ": Found multiple resources, using first in list")],
        Ok (hd_error matching, Csv))).
Proof.
  intros Hd Hm Hlen Hin Hub Hmy.
  pose proof (py_max_greatest _ _ Hin Hub) as Hmax.
  unfold find_resource. rewrite Hd, <- Hm.
  destruct (List.length matching =? 0)%nat eqn:H0;
    [apply Nat.eqb_eq in H0; lia|].
  pose proof Hlen as Hlt. apply Nat.ltb_lt in Hlt. rewrite Hlt.
  unfold narrow_by_year. rewrite Hmax, <- Hmy.
  split.
  - intros r Hr. rewrite Hr. reflexivity.
  - intro Hne. apply Nat.eqb_neq in Hne. rewrite Hne, Hlt.
    destruct matching as [|r rs]; [simpl in Hlen; lia|]. reflexivity.
Qed.

(** The specification's example: tables for 2019 and 2021 at one level. *)
Lemma find_resource_prefers_2021 :
  find_resource env_two_years cfg_default "AAA" 1
  = ([], Ok (Some (csv_resource "aaa_adm1_2021.csv"), Csv)).
Proof.
  refine (proj1 (find_resource_several_tables env_two_years cfg_default "AAA" 1
            (mkDataset [csv_resource "aaa_adm1_2019.csv"; csv_resource "aaa_adm1_2021.csv"])
            [csv_resource "aaa_adm1_2019.csv"; csv_resource "aaa_adm1_2021.csv"]
            [csv_resource "aaa_adm1_2021.csv"] 2021 _ _ _ _ _ _) _ _).
  - reflexivity.
  - vm_compute. reflexivity.
  - simpl. lia.
  - vm_compute. auto.
  - vm_compute. intros y [H|[H|[]]]; subst y; discriminate.
  - vm_compute. reflexivity.
  - reflexivity.
Defined.

(** ** Rounding *)

Lemma pow2_pos (e : Z) : 0 <= e -> 0 < 2 ^ e.
Proof. intro H. apply Z.pow_pos_nonneg; lia. Qed.

(** [int(round(x, 0))] is the nearest integer, ties to even. *)
Lemma int_round_nearest_even (x : float64) : nearest_even x (int_round x).
Proof.
  unfold nearest_even, int_round.
  destruct (0 <=? expo x) eqn:He; [reflexivity|].
  apply Z.leb_gt in He.
  set (d := 2 ^ (- expo x)).
  assert (Hd : 0 < d) by (apply pow2_pos; lia).
  pose proof (Z.div_mod (mant x) d ltac:(lia)) as Hdm.
  pose proof (Z.mod_pos_bound (mant x) d Hd) as Hr.
  set (q := mant x / d) in *. set (r := mant x mod d) in *.
  assert (Hq : mant x - q * d = r) by lia.
  assert (Hq1 : mant x - (q + 1) * d = r - d) by lia.
  cbv zeta.
  destruct (2 * r <? d) eqn:H1.
  - apply Z.ltb_lt in H1. rewrite Hq. split; lia.
  - apply Z.ltb_ge in H1.
    destruct (d <? 2 * r) eqn:H2.
    + apply Z.ltb_lt in H2. rewrite Hq1. split; lia.
    + apply Z.ltb_ge in H2.
      destruct (Z.even q) eqn:Hev.
      * rewrite Hq. split; [lia|auto].
      * rewrite Hq1. split; [lia|].
        intros _. rewrite Z.even_add, Hev. reflexivity.
Qed.

(** The nearest integer with ties to even is unique, so [nearest_even]
    determines what is stored. *)
Lemma nearest_even_unique (x : float64) (z1 z2 : Z) :
  nearest_even x z1 -> nearest_even x z2 -> z1 = z2.
Proof.
  unfold nearest_even.
  destruct (0 <=? expo x) eqn:He; [congruence|].
  apply Z.leb_gt in He. cbv zeta.
  set (d := 2 ^ (- expo x)).
  assert (Hd : 0 < d) by (apply pow2_pos; lia).
  intros [H1 T1] [H2 T2].
  assert (Hz : z1 = z2 \/ z1 = z2 + 1 \/ z2 = z1 + 1) by nia.
  destruct Hz as [Hz|[Hz|Hz]]; [exact Hz| |]; exfalso; subst.
  - assert (E2 : 2 * Z.abs (mant x - z2 * d) = d) by nia.
    assert (E1 : 2 * Z.abs (mant x - (z2 + 1) * d) = d) by nia.
    specialize (T1 E1). specialize (T2 E2).
    rewrite Z.even_add, T2 in T1. discriminate.
  - assert (E1 : 2 * Z.abs (mant x - z1 * d) = d) by nia.
    assert (E2 : 2 * Z.abs (mant x - (z1 + 1) * d) = d) by nia.
    specialize (T1 E1). specialize (T2 E2).
    rewrite Z.even_add, T1 in T2. discriminate.
Qed.

(** ** [analyze_raster] *)

Lemma set_Population_pcode (v : cell) (rec : BoundaryRecord) :
  ADM_PCODE (set_Population v rec) = ADM_PCODE rec.
Proof. reflexivity. Qed.

Lemma apply_feature_pcode (f : string * option float64) (rec : BoundaryRecord) :
  ADM_PCODE (apply_feature f rec) = ADM_PCODE rec.
Proof.
  unfold apply_feature. destruct (snd f) as [x|]; [|reflexivity].
  destruct (float_truthy x && String.eqb (ADM_PCODE rec) (fst f)); reflexivity.
Qed.

Lemma raster_row_map (B : boundaries) (f : string * option float64) :
  raster_row B f = map (apply_feature f) B.
Proof.
  destruct f as [pcode [x|]]; unfold raster_row, apply_feature; simpl.
  - destruct (float_truthy x); simpl.
    + reflexivity.
    + symmetry. apply map_id.
  - symmetry. apply map_id.
Qed.

(** The loop over the features acts on every row of the frame separately. *)
Lemma fold_raster_row_map (feats : list (string * option float64)) (B : boundaries) :
  fold_left raster_row feats B
  = map (fun rec => fold_left (fun r f => apply_feature f r) feats rec) B.
Proof.
  revert B; induction feats as [|f feats IH]; intro B; simpl.
  - symmetry. apply map_id.
  - rewrite IH, raster_row_map, map_map. reflexivity.
Qed.

Lemma fold_apply_feature_miss (feats : list (string * option float64))
    (rec : BoundaryRecord) :
  (forall f, In f feats -> fst f <> ADM_PCODE rec) ->
  fold_left (fun r f => apply_feature f r) feats rec = rec.
Proof.
  revert rec; induction feats as [|f feats IH]; intros rec H; simpl; [reflexivity|].
  assert (E : apply_feature f rec = rec).
  { unfold apply_feature. destruct (snd f) as [x|]; [|reflexivity].
    destruct (String.eqb (ADM_PCODE rec) (fst f)) eqn:Heq.
    - apply String.eqb_eq in Heq. exfalso. apply (H f); [now left|auto].
    - rewrite andb_false_r. reflexivity. }
  rewrite E. apply IH. intros g Hg. apply H. now right.
Qed.

Lemma fold_apply_feature_find (feats : list (string * option float64))
    (rec : BoundaryRecord) :
  NoDup (map fst feats) ->
  fold_left (fun r f => apply_feature f r) feats rec
  = match find (fun f => String.eqb (fst f) (ADM_PCODE rec)) feats with
    | Some f => apply_feature f rec
    | None => rec
    end.
Proof.
  revert rec; induction feats as [|f feats IH]; intros rec Hnd; simpl; [reflexivity|].
  inversion Hnd as [|a l Hnotin Hnd']; subst.
  destruct (String.eqb (fst f) (ADM_PCODE rec)) eqn:Heq.
  - apply String.eqb_eq in Heq.
    apply fold_apply_feature_miss. intros g Hg Hfg.
    rewrite apply_feature_pcode in Hfg. apply Hnotin.
    rewrite Heq, <- Hfg. now apply in_map.
  - assert (E : apply_feature f rec = rec).
    { unfold apply_feature. destruct (snd f) as [x|]; [|reflexivity].
      rewrite String.eqb_sym, Heq, andb_false_r. reflexivity. }
    rewrite E. now apply IH.
Qed.

Lemma NoDup_map_filter {A K : Type} (k : A -> K) (p : A -> bool) (l : list A) :
  NoDup (map k l) -> NoDup (map k (filter p l)).
Proof.
  induction l as [|a l IH]; simpl; intro H; [constructor|].
  inversion H as [|x xs Hnotin Hnd]; subst.
  destruct (p a); simpl; [constructor|]; auto.
  intro Hin. apply Hnotin. apply in_map_iff in Hin.
  destruct Hin as [b [Hb Hin]]. apply filter_In in Hin.
  apply in_map_iff. exists b. tauto.
Qed.

Lemma find_all_false {A : Type} (f : A -> bool) (l : list A) :
  (forall x, In x l -> f x = false) -> find f l = None.
Proof.
  induction l as [|a l IH]; simpl; intro H; [reflexivity|].
  rewrite (H a) by now left. apply IH. intros x Hx. apply H. now right.
Qed.

(** The feature that [zonal_stats] returns for a row of the frame. *)
Lemma find_own_feature (env : Collaborators) (iso : string) (level : Z)
    (pop_raster : string) (B : boundaries) (rec : BoundaryRecord) :
  NoDup (map (fun r : BoundaryRecord => ADM_PCODE r) B) -> In rec B ->
  find (fun f => String.eqb (fst f) (ADM_PCODE rec))
       (zonal_stats env (filter (fun r : BoundaryRecord => in_scope iso level r) B)
                    pop_raster)
  = if in_scope iso level rec
    then Some (ADM_PCODE rec, zonal_sum env pop_raster (geometry rec))
    else None.
Proof.
  unfold zonal_stats.
  induction B as [|a B IH]; intros Hnd Hin; [contradiction|].
  inversion Hnd as [|x xs Hnotin Hnd']; subst.
  assert (Hrest : forall r : BoundaryRecord, In r B -> ADM_PCODE r <> ADM_PCODE a).
  { intros r Hr E. apply Hnotin. rewrite <- E.
    apply (in_map (fun r : BoundaryRecord => ADM_PCODE r)). exact Hr. }
  destruct Hin as [->|Hin].
  - simpl. destruct (in_scope iso level rec) eqn:Hs.
    + simpl. rewrite String.eqb_refl. reflexivity.
    + apply find_all_false. intros f Hf. apply in_map_iff in Hf.
      destruct Hf as [r [<- Hr]]. apply filter_In in Hr. simpl.
      apply String.eqb_neq. apply Hrest. tauto.
  - simpl. destruct (in_scope iso level a) eqn:Hs.
    + simpl. destruct (String.eqb (ADM_PCODE a) (ADM_PCODE rec)) eqn:Heq.
      * apply String.eqb_eq in Heq. exfalso. now apply (Hrest rec).
      * now apply IH.
    + now apply IH.
Qed.

(** The frame that [analyze_raster] leaves, row by row, when the raster
    downloads and pcodes are unique in the frame. *)
Lemma analyze_raster_frame (env : Collaborators) (B : boundaries)
    (resource : Resource) (iso : string) (level : Z) (pop_raster : string) :
  download resource = Some pop_raster ->
  NoDup (map (fun r : BoundaryRecord => ADM_PCODE r) B) ->
  analyze_raster env B resource iso level
  = ([], map (stored_by_raster env iso level pop_raster) B, Some iso).
Proof.
  intros Hdl Hnd. unfold analyze_raster. rewrite Hdl.
  rewrite fold_raster_row_map. f_equal. f_equal.
  apply map_ext_in. intros rec Hrec.
  rewrite fold_apply_feature_find.
  - rewrite (find_own_feature env iso level pop_raster B rec Hnd Hrec).
    unfold stored_by_raster. destruct (in_scope iso level rec); [|reflexivity].
    unfold apply_feature. simpl.
    destruct (zonal_sum env pop_raster (geometry rec)) as [x|]; [|reflexivity].
    rewrite String.eqb_refl, andb_true_r. reflexivity.
  - unfold zonal_stats. rewrite map_map. simpl.
    apply (NoDup_map_filter (fun r : BoundaryRecord => ADM_PCODE r)). exact Hnd.
Qed.

Lemma float_truthy_zero (x : float64) : mant x = 0 -> float_truthy x = false.
Proof. unfold float_truthy. intros ->. reflexivity. Qed.

Lemma float_truthy_nonzero (x : float64) : mant x <> 0 -> float_truthy x = true.
Proof.
  unfold float_truthy. intro H. apply Z.eqb_neq in H. rewrite H. reflexivity.
Qed.

Lemma fold_raster_row_falsy (feats : list (string * option float64)) (B : boundaries) :
  (forall f, In f feats ->
     match snd f with Some x => mant x = 0 | None => True end) ->
  fold_left raster_row feats B = B.
Proof.
  induction feats as [|[pcode pop] feats IH]; intro H; [reflexivity|].
  cbn [fold_left].
  assert (E : raster_row B (pcode, pop) = B).
  { specialize (H (pcode, pop) (or_introl eq_refl)). simpl in H.
    destruct pop as [x|]; simpl; [|reflexivity].
    rewrite (float_truthy_zero x H). reflexivity. }
  rewrite E. apply IH. intros f Hf. apply H. now right.
Qed.

(** The specification's example and its neighbours: 1234.4 is stored as
    1234, the polygon without covered cells keeps its null, the zero sum
    leaves the 7 in place, and the rows of other levels are not touched. *)
Example analyze_raster_1234 :
  analyze_raster env_raster B_raster tif "AAA" 1
  = ([],
     [boundary 0 "AAA" 1 "A01" (CInt 1234) "POLYGON A";
      boundary 1 "AAA" 1 "A02" CNull "POLYGON B";
      boundary 2 "AAA" 1 "A03" (CInt 7) "POLYGON C";
      boundary 3 "AAA" 2 "A0101" CNull "POLYGON A";
      boundary 4 "AAA" 3 "A010101" CNull "POLYGON C"],
     Some "AAA").
Proof. vm_compute. reflexivity. Qed.

(** C4 as stated fails: a polygon whose sum is 2.5 gets the population 2,
    and 2.5 rounded half up is 3. *)
Lemma analyze_raster_tie_is_not_half_up :
  zonal_sum env_raster "/tmp/2020_constrained.tif" "POLYGON D" = Some x_2_5
  /\ analyze_raster env_raster B_half tif "AAA" 1
     = ([], [boundary 0 "AAA" 1 "A04" (CInt 2) "POLYGON D"], Some "AAA")
  /\ nearest_half_up x_2_5 3
  /\ ~ nearest_half_up x_2_5 2.
Proof.
  split; [reflexivity|]. split; [vm_compute; reflexivity|].
  unfold nearest_half_up; simpl. split; lia.
Qed.

(** C4, amended.  When the raster downloads and pcodes are unique in the
    frame, [analyze_raster] keeps the rows in place, and for every row of the
    (country, level) scope:
    - a polygon with a defined, non-zero sum [x] gets the population [z], the
      integer nearest to [x] with a tie sent to the even neighbour;
    - a polygon with an undefined sum keeps its row as it was (a null
      population stays null). *)
Theorem analyze_raster_stores_nearest_even (env : Collaborators) (B : boundaries)
    (resource : Resource) (iso : string) (level : Z) (pop_raster : string) :
  download resource = Some pop_raster ->
  NoDup (map (fun r : BoundaryRecord => ADM_PCODE r) B) ->
  exists B',
    analyze_raster env B resource iso level = ([], B', Some iso)
    /\ List.length B' = List.length B
    /\ forall (i : nat) (rec : BoundaryRecord),
         nth_error B i = Some rec -> in_scope iso level rec = true ->
         match zonal_sum env pop_raster (geometry rec) with
         | Some x =>
             mant x <> 0 ->
             exists z, nearest_even x z
                       /\ nth_error B' i = Some (set_Population (CInt z) rec)
         | None => nth_error B' i = Some rec
         end.
Proof.
  intros Hdl Hnd.
  exists (map (stored_by_raster env iso level pop_raster) B).
  split; [now apply analyze_raster_frame|].
  split; [apply length_map|].
  intros i rec Hi Hs.
  pose proof (map_nth_error (stored_by_raster env iso level pop_raster) i B Hi) as Hn.
  unfold stored_by_raster in Hn at 2. rewrite Hs in Hn.
  destruct (zonal_sum env pop_raster (geometry rec)) as [x|]; [|exact Hn].
  intro Hx. exists (int_round x). split; [apply int_round_nearest_even|].
  rewrite (float_truthy_nonzero x Hx) in Hn. exact Hn.
Qed.

Lemma analyze_raster_stores_nearest_even_example :
  exists B',
    analyze_raster env_raster B_raster tif "AAA" 1 = ([], B', Some "AAA")
    /\ List.length B' = List.length B_raster
    /\ forall (i : nat) (rec : BoundaryRecord),
         nth_error B_raster i = Some rec -> in_scope "AAA" 1 rec = true ->
         match zonal_sum env_raster "/tmp/2020_constrained.tif" (geometry rec) with
         | Some x =>
             mant x <> 0 ->
             exists z, nearest_even x z
                       /\ nth_error B' i = Some (set_Population (CInt z) rec)
         | None => nth_error B' i = Some rec
         end.
Proof.
  apply (analyze_raster_stores_nearest_even env_raster B_raster tif "AAA" 1
           "/tmp/2020_constrained.tif").
  - reflexivity.
  - simpl. repeat constructor; simpl; intuition discriminate.
Defined.

(** C8.  [analyze_raster] has three outcomes:
    - the download fails: the error is logged, the frame is returned as it
      was and the result is the failure marker [None];
    - the download succeeds: the result is the country code;
    - the download succeeds and no polygon of the scope has a non-zero sum:
      the result is still the country code, and the frame is as it was. *)
Theorem analyze_raster_outcome (env : Collaborators) (B : boundaries)
    (resource : Resource) (iso : string) (level : Z) :
  (download resource = None ->
     analyze_raster env B resource iso level
     = ([(Error, iso ++ ": Could not download geotiff")], B, None))
  /\ (forall pop_raster, download resource = Some pop_raster ->
        exists B', analyze_raster env B resource iso level = ([], B', Some iso))
  /\ (forall pop_raster, download resource = Some pop_raster ->
        (forall rec : BoundaryRecord, In rec B -> in_scope iso level rec = true ->
           match zonal_sum env pop_raster (geometry rec) with
           | Some x => mant x = 0
           | None => True
           end) ->
        analyze_raster env B resource iso level = ([], B, Some iso)).
Proof.
  unfold analyze_raster. split; [|split].
  - intros ->. reflexivity.
  - intros p ->. eauto.
  - intros p -> H. rewrite fold_raster_row_falsy; [reflexivity|].
    intros f Hf. unfold zonal_stats in Hf. apply in_map_iff in Hf.
    destruct Hf as [rec [<- Hrec]]. apply filter_In in Hrec. simpl.
    apply H; tauto.
Qed.

Lemma analyze_raster_outcome_example :
  analyze_raster env_raster B_raster tif_unreachable "AAA" 1
  = ([(Error, "AAA: Could not download geotiff")], B_raster, None)
  /\ (exists B', analyze_raster env_raster B_raster tif "AAA" 1 = ([], B', Some "AAA"))
  /\ analyze_raster env_raster B_raster tif "AAA" 3 = ([], B_raster, Some "AAA").
Proof.
  pose proof (analyze_raster_outcome env_raster B_raster tif_unreachable "AAA" 1) as H1.
  pose proof (analyze_raster_outcome env_raster B_raster tif "AAA" 1) as H2.
  pose proof (analyze_raster_outcome env_raster B_raster tif "AAA" 3) as H3.
  split; [|split].
  - apply (proj1 H1). reflexivity.
  - apply (proj1 (proj2 H2) "/tmp/2020_constrained.tif"). reflexivity.
  - apply (proj2 (proj2 H3) "/tmp/2020_constrained.tif"); [reflexivity|].
    intros rec Hin Hs. simpl in Hin.
    destruct Hin as [<-|[<-|[<-|[<-|[<-|[]]]]]]; try discriminate Hs.
    reflexivity.
Defined.

(** C9.  A polygon whose sum is exactly zero is handled as a polygon whose
    sum is undefined: the loop body leaves the whole frame as it was; and
    after the call (raster downloaded, pcodes unique) the row of such a
    polygon is the row it was, so the zero is not stored. *)
Theorem analyze_raster_zero_sum_not_stored :
  (forall (B : boundaries) (pcode : string) (x : float64),
     mant x = 0 ->
     raster_row B (pcode, Some x) = B
     /\ raster_row B (pcode, Some x) = raster_row B (pcode, None))
  /\ (forall (env : Collaborators) (B : boundaries) (resource : Resource)
        (iso : string) (level : Z) (pop_raster : string) (i : nat)
        (rec : BoundaryRecord) (x : float64),
        download resource = Some pop_raster ->
        NoDup (map (fun r : BoundaryRecord => ADM_PCODE r) B) ->
        nth_error B i = Some rec ->
        zonal_sum env pop_raster (geometry rec) = Some x ->
        mant x = 0 ->
        nth_error (snd (fst (analyze_raster env B resource iso level))) i = Some rec).
Proof.
  split.
  - intros B pcode x Hx. simpl. rewrite (float_truthy_zero x Hx). auto.
  - intros env B resource iso level p i rec x Hdl Hnd Hi Hz Hx.
    rewrite (analyze_raster_frame env B resource iso level p Hdl Hnd). simpl.
    rewrite (map_nth_error (stored_by_raster env iso level p) i B Hi).
    unfold stored_by_raster. rewrite Hz, (float_truthy_zero x Hx).
    destruct (in_scope iso level rec); reflexivity.
Qed.

Lemma analyze_raster_zero_sum_example :
  raster_row B_raster ("A03", Some x_zero) = B_raster
  /\ nth_error (snd (fst (analyze_raster env_raster B_raster tif "AAA" 1))) 2
     = Some (boundary 2 "AAA" 1 "A03" (CInt 7) "POLYGON C").
Proof.
  split.
  - apply (proj1 (proj1 analyze_raster_zero_sum_not_stored B_raster "A03" x_zero eq_refl)).
  - apply (proj2 analyze_raster_zero_sum_not_stored env_raster B_raster tif "AAA" 1
             "/tmp/2020_constrained.tif" 2%nat
             (boundary 2 "AAA" 1 "A03" (CInt 7) "POLYGON C") x_zero).
    + reflexivity.
    + simpl. repeat constructor; simpl; intuition discriminate.
    + reflexivity.
    + reflexivity.
    + reflexivity.
Defined.

(** ** [analyze_tabular]: the header roles *)

Lemma upper_empty (h : string) : upper h = "T_TL" -> h <> "".
Proof. intros H ->. discriminate H. Qed.

Lemma str_in_In (x : string) (l : list string) : str_in x l = true <-> In x l.
Proof.
  unfold str_in. rewrite existsb_exists. split.
  - intros [y [Hy E]]. apply String.eqb_eq in E. now subst.
  - intro H. exists x. split; [exact H|apply String.eqb_refl].
Qed.

Lemma header_step_truthy (cfg : Configuration) (level : Z)
    (p v : option string) (h : string) :
  truthy (fst (header_step cfg level (p, v) h))
  = truthy p || (negb (String.eqb h "") && str_in (upper h) (pcode_templates cfg level))
  /\ truthy (snd (header_step cfg level (p, v) h))
     = truthy v || String.eqb (upper h) "T_TL".
Proof.
  unfold header_step. simpl. split.
  - destruct (truthy p) eqn:Hp; simpl; [exact Hp|].
    destruct (str_in (upper h) (pcode_templates cfg level)); simpl.
    + rewrite andb_true_r. reflexivity.
    + rewrite andb_false_r. exact Hp.
  - destruct (truthy v) eqn:Hv; simpl; [exact Hv|].
    destruct (String.eqb (upper h) "T_TL") eqn:E; simpl; [|exact Hv].
    apply String.eqb_eq, upper_empty in E. apply String.eqb_neq in E.
    rewrite E. reflexivity.
Qed.

Lemma fold_header_step_truthy (cfg : Configuration) (level : Z)
    (headers : list string) (p v : option string) :
  truthy (fst (fold_left (header_step cfg level) headers (p, v)))
  = truthy p
    || existsb (fun h => negb (String.eqb h "")
                         && str_in (upper h) (pcode_templates cfg level)) headers
  /\ truthy (snd (fold_left (header_step cfg level) headers (p, v)))
     = truthy v || existsb (fun h => String.eqb (upper h) "T_TL") headers.
Proof.
  revert p v; induction headers as [|h hs IH]; intros p v.
  - simpl. now rewrite !orb_false_r.
  - cbn [fold_left existsb].
    destruct (header_step cfg level (p, v) h) as [p1 v1] eqn:E.
    destruct (header_step_truthy cfg level p v h) as [Hp Hv].
    rewrite E in Hp, Hv. simpl in Hp, Hv.
    destruct (IH p1 v1) as [IHp IHv].
    rewrite IHp, IHv, Hp, Hv, !orb_assoc. auto.
Qed.

(** The loop over the headers resolves a role exactly when the
    specification's wording says so. *)
Lemma resolve_headers_roles (cfg : Configuration) (level : Z)
    (headers : list string) :
  (truthy (fst (resolve_headers cfg level headers)) = true
   <-> pcode_role_resolved cfg level headers)
  /\ (truthy (snd (resolve_headers cfg level headers)) = true
      <-> pop_role_resolved headers).
Proof.
  unfold resolve_headers.
  destruct (fold_header_step_truthy cfg level headers None None) as [Hp Hv].
  rewrite Hp, Hv. simpl. rewrite !existsb_exists.
  unfold pcode_role_resolved, pop_role_resolved. split; split.
  - intros [h [Hin Hh]]. apply andb_true_iff in Hh. destruct Hh as [Hne Hh].
    exists h. split; [exact Hin|]. split.
    + apply negb_true_iff in Hne. now apply String.eqb_neq.
    + now apply str_in_In.
  - intros [h [Hin [Hne Hh]]]. exists h. split; [exact Hin|].
    apply andb_true_iff. split.
    + apply negb_true_iff. now apply String.eqb_neq.
    + now apply str_in_In.
  - intros [h [Hin Hh]]. exists h. split; [exact Hin|now apply String.eqb_eq].
  - intros [h [Hin Hh]]. exists h. split; [exact Hin|now apply String.eqb_eq].
Qed.

(** ** [analyze_tabular]: the loop over the rows *)

Lemma cell_is_spec (c : cell) (p : string) : cell_is c p = true <-> c = CStr p.
Proof.
  destruct c as [|z|s]; simpl; split; intro H; try discriminate.
  - apply String.eqb_eq in H. now subst.
  - inversion H. apply String.eqb_refl.
Qed.

Lemma pcode_known_spec (c : cell) (B : boundaries) :
  pcode_known c B = true
  <-> exists rec : BoundaryRecord, In rec B /\ c = CStr (ADM_PCODE rec).
Proof.
  unfold pcode_known. rewrite existsb_exists. split.
  - intros [p [Hp Hc]]. apply in_map_iff in Hp. destruct Hp as [rec [<- Hrec]].
    exists rec. split; [exact Hrec|now apply cell_is_spec].
  - intros [rec [Hrec Hc]]. exists (ADM_PCODE rec). split.
    + apply (in_map (fun r : BoundaryRecord => ADM_PCODE r)). exact Hrec.
    + now apply cell_is_spec.
Qed.

Lemma pcode_known_false (c : cell) (B : boundaries) :
  pcode_known c B = false
  <-> forall rec : BoundaryRecord, In rec B -> c <> CStr (ADM_PCODE rec).
Proof.
  split.
  - intros H rec Hrec Hc.
    assert (K : pcode_known c B = true) by (apply pcode_known_spec; eauto).
    congruence.
  - intro H. destruct (pcode_known c B) eqn:K; [|reflexivity].
    apply pcode_known_spec in K. destruct K as [rec [Hrec Hc]].
    exfalso. now apply (H rec).
Qed.

Lemma apply_row_pcode (ph vh : string) (r : row) (rec : BoundaryRecord) :
  ADM_PCODE (apply_row ph vh r rec) = ADM_PCODE rec.
Proof. unfold apply_row. destruct (cell_is (r ph) (ADM_PCODE rec)); reflexivity. Qed.

Lemma map_apply_row_pcodes (ph vh : string) (r : row) (B : boundaries) :
  map (fun x : BoundaryRecord => ADM_PCODE x) (map (apply_row ph vh r) B)
  = map (fun x : BoundaryRecord => ADM_PCODE x) B.
Proof. rewrite map_map. apply map_ext. intro rec. apply apply_row_pcode. Qed.

Lemma pcode_known_apply_row (ph vh : string) (r : row) (c : cell) (B : boundaries) :
  pcode_known c (map (apply_row ph vh r) B) = pcode_known c B.
Proof. unfold pcode_known. now rewrite map_apply_row_pcodes. Qed.

(** When no row of the frame carries the pcode, the write changes nothing. *)
Lemma map_apply_row_unknown (ph vh : string) (r : row) (B : boundaries) :
  pcode_known (r ph) B = false -> map (apply_row ph vh r) B = B.
Proof.
  intro H. rewrite <- (map_id B) at 2. apply map_ext_in. intros rec Hrec.
  unfold apply_row. destruct (cell_is (r ph) (ADM_PCODE rec)) eqn:E; [|reflexivity].
  apply cell_is_spec in E. exfalso.
  apply (proj1 (pcode_known_false (r ph) B) H rec Hrec E).
Qed.

Lemma existsb_pointwise {A : Type} (f g : A -> bool) (l : list A) :
  (forall x, f x = g x) -> existsb f l = existsb g l.
Proof. intro H. induction l as [|a l IH]; simpl; [reflexivity|]. now rewrite H, IH. Qed.

(** One row of the stream: the frame, the log and the flag after it. *)
Lemma tabular_row_reading (iso : string) (level : Z) (ph vh : string)
    (B : boundaries) (log : list log_entry) (updated : bool) (r : row) :
  tabular_row iso level ph vh (B, log, updated) r
  = (map (apply_row ph vh r) B,
     if pcode_known (r ph) B then log
     else List.app log [row_warning iso level ph r],
     updated || pcode_known (r ph) B).
Proof.
  unfold tabular_row. destruct (pcode_known (r ph) B) eqn:K; simpl.
  - rewrite orb_true_r. reflexivity.
  - rewrite orb_false_r, (map_apply_row_unknown ph vh r B K). reflexivity.
Qed.

(** The whole stream: every row of the frame sees the rows one after the
    other; the unknown pcodes are warned about in order; the flag tells
    whether some pcode was known. *)
Lemma fold_tabular_row_reading (iso : string) (level : Z) (ph vh : string)
    (rows : list row) (B : boundaries) (log : list log_entry) (updated : bool) :
  fold_left (tabular_row iso level ph vh) rows (B, log, updated)
  = (map (fun rec => fold_left (fun rc r => apply_row ph vh r rc) rows rec) B,
     List.app log
       (map (row_warning iso level ph)
            (filter (fun r => negb (pcode_known (r ph) B)) rows)),
     updated || existsb (fun r => pcode_known (r ph) B) rows).
Proof.
  revert B log updated; induction rows as [|r rows IH]; intros B log updated.
  - simpl. rewrite map_id, app_nil_r, orb_false_r. reflexivity.
  - cbn [fold_left]. rewrite tabular_row_reading, IH.
    rewrite map_map. cbn [filter existsb fold_left].
    f_equal; [f_equal|].
    + destruct (pcode_known (r ph) B) eqn:K; simpl.
      * f_equal. f_equal. apply filter_ext. intro r'.
        now rewrite pcode_known_apply_row.
      * rewrite <- app_assoc. simpl. f_equal. f_equal. f_equal.
        apply filter_ext. intro r'. now rewrite pcode_known_apply_row.
    + rewrite <- orb_assoc. f_equal. f_equal.
      apply existsb_pointwise. intro r'. now rewrite pcode_known_apply_row.
Qed.

Lemma set_Population_twice (v w : cell) (rec : BoundaryRecord) :
  set_Population v (set_Population w rec) = set_Population v rec.
Proof. reflexivity. Qed.

(** A row of the frame ends with the cell of the last streamed row that
    carries its pcode. *)
Lemma fold_apply_row_last (ph vh : string) (rows : list row) (rec : BoundaryRecord) :
  fold_left (fun rc r => apply_row ph vh r rc) rows rec
  = match last_row_for ph (ADM_PCODE rec) rows with
    | Some r => set_Population (r vh) rec
    | None => rec
    end.
Proof.
  revert rec; induction rows as [|r rows IH]; intro rec; [reflexivity|].
  cbn [fold_left last_row_for]. rewrite IH, apply_row_pcode.
  destruct (last_row_for ph (ADM_PCODE rec) rows) as [r'|].
  - unfold apply_row. destruct (cell_is (r ph) (ADM_PCODE rec)); reflexivity.
  - unfold apply_row. destruct (cell_is (r ph) (ADM_PCODE rec)); reflexivity.
Qed.

(** [analyze_tabular], read in one piece. *)
Lemma analyze_tabular_reading (env : Collaborators) (cfg : Configuration)
    (B : boundaries) (resource : Resource) (iso : string) (level : Z)
    (headers : list string) (rows : list row) :
  get_tabular_rows env (url resource) = (headers, rows) ->
  analyze_tabular env cfg B resource iso level
  = if negb (truthy (fst (resolve_headers cfg level headers))) then
      ([(Error, iso ++ ": Could not find pcode header at adm" ++ str level)], B, None)
    else if negb (truthy (snd (resolve_headers cfg level headers))) then
      ([(Error, iso ++ ": Could not find pop header at adm" ++ str level)], B, None)
    else
      let ph := header_text (fst (resolve_headers cfg level headers)) in
      let vh := header_text (snd (resolve_headers cfg level headers)) in
      (map (row_warning iso level ph)
           (filter (fun r => negb (pcode_known (r ph) B)) rows),
       map (fun rec : BoundaryRecord =>
              match last_row_for ph (ADM_PCODE rec) rows with
              | Some r => set_Population (r vh) rec
              | None => rec
              end) B,
       if existsb (fun r => pcode_known (r ph) B) rows then Some iso else None).
Proof.
  intro Hrows. unfold analyze_tabular. rewrite Hrows.
  destruct (resolve_headers cfg level headers) as [p v]. cbn [fst snd].
  destruct (negb (truthy p)); [reflexivity|].
  destruct (negb (truthy v)); [reflexivity|].
  rewrite fold_tabular_row_reading. cbv zeta. cbn [List.app orb].
  assert (E : map (fun rec => fold_left
                     (fun rc r => apply_row (header_text p) (header_text v) r rc)
                     rows rec) B
              = map (fun rec : BoundaryRecord =>
                       match last_row_for (header_text p) (ADM_PCODE rec) rows with
                       | Some r => set_Population (r (header_text v)) rec
                       | None => rec
                       end) B).
  { apply map_ext. intro rec. apply fold_apply_row_last. }
  rewrite E.
  destruct (existsb (fun r => pcode_known (r (header_text p)) B) rows); reflexivity.
Qed.

(** C3 as stated fails: the level-2 table of Kenya has a row with the pcode
    KE01, which no level-2 unit carries.  The call for (KEN, 2) logs no
    warning and writes the row's value onto the level-1 unit KE01. *)
Lemma analyze_tabular_writes_outside_scope :
  str_in "KE01"
         (map (fun r : BoundaryRecord => ADM_PCODE r)
              (filter (fun r : BoundaryRecord => in_scope "KEN" 2 r) B_ken))
  = false
  /\ analyze_tabular env_ken cfg_default B_ken ken_adm2 "KEN" 2
     = ([],
        [boundary 0 "KEN" 1 "KE01" (CStr "900") "POLYGON A";
         boundary 1 "KEN" 2 "KE0101" CNull "POLYGON B"],
        Some "KEN").
Proof. split; vm_compute; reflexivity. Qed.

(** C3, amended.  For every streamed row [r], read under the headers [ph]
    (pcode) and [vh] (population):
    - if no row of the whole frame, whatever its country and level, carries
      the pcode of [r], the warning is logged and the frame and the flag are
      as they were;
    - otherwise the flag is set, nothing is logged, the frame keeps its rows
      in place, the rows with that pcode get the population cell of [r] and
      every other row is as it was; when pcodes are unique in the frame that
      is one row. *)
Theorem tabular_row_effect (iso : string) (level : Z) (ph vh : string)
    (B : boundaries) (log : list log_entry) (updated : bool) (r : row) :
  ((forall rec : BoundaryRecord, In rec B -> r ph <> CStr (ADM_PCODE rec)) ->
     tabular_row iso level ph vh (B, log, updated) r
     = (B,
        emit log Warning (iso ++ ": Could not find unit " ++ cell_text (r ph)
                              ++ " in boundaries at adm" ++ str level),
        updated))
  /\ ((exists rec : BoundaryRecord, In rec B /\ r ph = CStr (ADM_PCODE rec)) ->
      exists B',
        tabular_row iso level ph vh (B, log, updated) r = (B', log, true)
        /\ List.length B' = List.length B
        /\ (forall (i : nat) (rec : BoundaryRecord),
              nth_error B i = Some rec ->
              (r ph = CStr (ADM_PCODE rec) ->
                 nth_error B' i = Some (set_Population (r vh) rec))
              /\ (r ph <> CStr (ADM_PCODE rec) -> nth_error B' i = Some rec))
        /\ (NoDup (map (fun x : BoundaryRecord => ADM_PCODE x) B) ->
              exists B1 rec B2,
                B = List.app B1 (rec :: B2)
                /\ r ph = CStr (ADM_PCODE rec)
                /\ B' = List.app B1 (set_Population (r vh) rec :: B2))).
Proof.
  split.
  - intro H. apply pcode_known_false in H.
    unfold tabular_row. rewrite H. reflexivity.
  - intros Hex. pose proof (proj2 (pcode_known_spec (r ph) B) Hex) as K.
    exists (map (apply_row ph vh r) B).
    split; [unfold tabular_row; rewrite K; reflexivity|].
    split; [apply length_map|]. split.
    + intros i rec Hi.
      pose proof (map_nth_error (apply_row ph vh r) i B Hi) as Hn.
      unfold apply_row in Hn at 2. split; intro Hc.
      * apply cell_is_spec in Hc. now rewrite Hc in Hn.
      * destruct (cell_is (r ph) (ADM_PCODE rec)) eqn:E; [|exact Hn].
        apply cell_is_spec in E. contradiction.
    + intro Hnd. destruct Hex as [rec [Hrec Hc]].
      destruct (in_split rec B Hrec) as [B1 [B2 HB]].
      exists B1, rec, B2. split; [exact HB|]. split; [exact Hc|].
      rewrite HB in Hnd |- *. rewrite map_app in Hnd |- *. cbn [map] in Hnd |- *.
      assert (Hother : forall x : BoundaryRecord,
                 In x B1 \/ In x B2 -> apply_row ph vh r x = x).
      { intros x Hx. unfold apply_row.
        destruct (cell_is (r ph) (ADM_PCODE x)) eqn:E; [|reflexivity].
        apply cell_is_spec in E. exfalso.
        assert (Epc : ADM_PCODE x = ADM_PCODE rec) by congruence.
        apply NoDup_remove_2 in Hnd. apply Hnd. rewrite <- Epc.
        apply in_or_app.
        destruct Hx as [Hx|Hx]; [left|right];
          apply (in_map (fun y : BoundaryRecord => ADM_PCODE y)); exact Hx. }
      f_equal.
      * rewrite <- (map_id B1) at 2. apply map_ext_in. intros x Hx. apply Hother. now left.
      * f_equal.
        -- unfold apply_row. apply cell_is_spec in Hc. now rewrite Hc.
        -- rewrite <- (map_id B2) at 2. apply map_ext_in. intros x Hx. apply Hother. now right.
Qed.

Lemma tabular_row_effect_example :
  tabular_row "KEN" 1 "ADM1PCODE" "T_TL" (B_ken, [], false)
    (row_of [("ADM1PCODE", CStr "KE99"); ("T_TL", CStr "12")])
  = (B_ken,
     [(Warning, "KEN: Could not find unit KE99 in boundaries at adm1")],
     false)
  /\ exists B',
       tabular_row "KEN" 1 "ADM1PCODE" "T_TL" (B_ken, [], false)
         (row_of [("ADM1PCODE", CStr "KE01"); ("T_TL", CStr "500000")])
       = (B', [], true)
       /\ nth_error B' 0 = Some (boundary 0 "KEN" 1 "KE01" (CStr "500000") "POLYGON A")
       /\ nth_error B' 1 = Some (boundary 1 "KEN" 2 "KE0101" CNull "POLYGON B").
Proof.
  split.
  - apply (proj1 (tabular_row_effect "KEN" 1 "ADM1PCODE" "T_TL" B_ken [] false
                    (row_of [("ADM1PCODE", CStr "KE99"); ("T_TL", CStr "12")]))).
    intros rec Hin. simpl in Hin.
    destruct Hin as [<-|[<-|[]]]; discriminate.
  - destruct (proj2 (tabular_row_effect "KEN" 1 "ADM1PCODE" "T_TL" B_ken [] false
                       (row_of [("ADM1PCODE", CStr "KE01"); ("T_TL", CStr "500000")])))
      as [B' [Hrow [_ [Hnth _]]]].
    + exists (boundary 0 "KEN" 1 "KE01" CNull "POLYGON A").
      split; [now left|reflexivity].
    + exists B'. split; [exact Hrow|]. split.
      * apply (proj1 (Hnth 0%nat (boundary 0 "KEN" 1 "KE01" CNull "POLYGON A") eq_refl)).
        reflexivity.
      * apply (proj2 (Hnth 1%nat (boundary 1 "KEN" 2 "KE0101" CNull "POLYGON B") eq_refl)).
        discriminate.
Defined.

Lemma not_true_false (b : bool) (P : Prop) : (b = true <-> P) -> (b = false <-> ~ P).
Proof.
  intros [H1 H2]. split.
  - intros Hb HP. apply H2 in HP. congruence.
  - intro HnP. destruct b; [exfalso; auto|reflexivity].
Qed.

Lemma existsb_known_false (ph : string) (rows : list row) (B : boundaries) :
  existsb (fun r => pcode_known (r ph) B) rows = false
  <-> forall (r : row) (rec : BoundaryRecord),
        In r rows -> In rec B -> r ph <> CStr (ADM_PCODE rec).
Proof.
  split.
  - intros H r rec Hr Hrec.
    assert (K : pcode_known (r ph) B = false).
    { destruct (pcode_known (r ph) B) eqn:K; [|reflexivity].
      assert (existsb (fun r => pcode_known (r ph) B) rows = true)
        by (apply existsb_exists; eauto).
      congruence. }
    now apply (proj1 (pcode_known_false (r ph) B) K).
  - intro H. destruct (existsb (fun r => pcode_known (r ph) B) rows) eqn:E; [|reflexivity].
    apply existsb_exists in E. destruct E as [r [Hr K]].
    apply pcode_known_spec in K. destruct K as [rec [Hrec Hc]].
    exfalso. now apply (H r rec).
Qed.

(** C6.  With [headers] and [rows] what the row streamer delivers:
    - [analyze_tabular] returns the failure marker [None] exactly when the
      pcode role is unresolved, or the population role is unresolved, or no
      streamed row has a pcode that a row of the frame carries (so that no
      row ever updated a boundary record);
    - with the pcode role unresolved the frame is returned as it was and the
      one diagnostic names the pcode header;
    - with the pcode role resolved and the population role unresolved the
      frame is returned as it was and the one diagnostic names the pop
      header. *)
Theorem analyze_tabular_failure (env : Collaborators) (cfg : Configuration)
    (B : boundaries) (resource : Resource) (iso : string) (level : Z)
    (headers : list string) (rows : list row) :
  get_tabular_rows env (url resource) = (headers, rows) ->
  (snd (analyze_tabular env cfg B resource iso level) = None
   <-> ~ pcode_role_resolved cfg level headers
       \/ ~ pop_role_resolved headers
       \/ (forall (r : row) (rec : BoundaryRecord),
             In r rows -> In rec B ->
             r (header_text (fst (resolve_headers cfg level headers)))
             <> CStr (ADM_PCODE rec)))
  /\ (~ pcode_role_resolved cfg level headers ->
        analyze_tabular env cfg B resource iso level
        = ([(Error, iso ++ ": Could not find pcode header at adm" ++ str level)],
           B, None))
  /\ (pcode_role_resolved cfg level headers -> ~ pop_role_resolved headers ->
        analyze_tabular env cfg B resource iso level
        = ([(Error, iso ++ ": Could not find pop header at adm" ++ str level)],
           B, None)).
Proof.
  intro Hrows.
  rewrite (analyze_tabular_reading env cfg B resource iso level headers rows Hrows).
  destruct (resolve_headers_roles cfg level headers) as [Hp Hv].
  pose proof (not_true_false _ _ Hp) as Hp'.
  pose proof (not_true_false _ _ Hv) as Hv'.
  set (p := fst (resolve_headers cfg level headers)) in *.
  set (v := snd (resolve_headers cfg level headers)) in *.
  split; [|split].
  - destruct (truthy p) eqn:Tp; simpl.
    + destruct (truthy v) eqn:Tv; simpl.
      * destruct (existsb (fun r => pcode_known (r (header_text p)) B) rows) eqn:E.
        -- split; [discriminate|]. intros [H|[H|H]].
           ++ apply Hp' in H. discriminate.
           ++ apply Hv' in H. discriminate.
           ++ apply existsb_known_false in H. congruence.
        -- split; [|reflexivity]. intros _. right. right.
           now apply existsb_known_false.
      * split; [|reflexivity]. intros _. right. left. now apply Hv'.
    + split; [|reflexivity]. intros _. left. now apply Hp'.
  - intro H. apply Hp' in H. rewrite H. reflexivity.
  - intros H1 H2. apply Hp in H1. apply Hv' in H2. rewrite H1, H2. reflexivity.
Qed.

Lemma analyze_tabular_failure_example :
  analyze_tabular env_ken cfg_default B_ken ken_adm3 "KEN" 3
  = ([(Error, "KEN: Could not find pcode header at adm3")], B_ken, None).
Proof.
  apply (proj1 (proj2 (analyze_tabular_failure env_ken cfg_default B_ken ken_adm3
                         "KEN" 3 ["NAME"; "T_TL"]
                         [row_of [("NAME", CStr "Nairobi"); ("T_TL", CStr "1")]]
                         eq_refl))).
  intros [h [Hin [_ Ht]]]. simpl in Hin, Ht.
  destruct Hin as [<-|[<-|[]]]; vm_compute in Ht; intuition discriminate.
Defined.

(** C10.  With both roles resolved, to the non-empty headers [ph] and [vh],
    [analyze_tabular] leaves every row of the frame in its place, and the
    population of a row is the cell that the last streamed row with its
    pcode holds under [vh], as the streamer delivered it: no conversion is
    applied to the cell.  A row whose pcode no streamed row carries is as it
    was. *)
Theorem analyze_tabular_stores_raw_cell (env : Collaborators) (cfg : Configuration)
    (B : boundaries) (resource : Resource) (iso : string) (level : Z)
    (headers : list string) (rows : list row) (ph vh : string) :
  get_tabular_rows env (url resource) = (headers, rows) ->
  resolve_headers cfg level headers = (Some ph, Some vh) ->
  ph <> "" -> vh <> "" ->
  forall (i : nat) (rec : BoundaryRecord),
    nth_error B i = Some rec ->
    nth_error (snd (fst (analyze_tabular env cfg B resource iso level))) i
    = Some match last_row_for ph (ADM_PCODE rec) rows with
           | Some r => set_Population (r vh) rec
           | None => rec
           end
    /\ (forall r, last_row_for ph (ADM_PCODE rec) rows = Some r ->
          In r rows /\ r ph = CStr (ADM_PCODE rec)).
Proof.
  intros Hrows Hres Hph Hvh i rec Hi.
  rewrite (analyze_tabular_reading env cfg B resource iso level headers rows Hrows).
  rewrite Hres. cbn [fst snd truthy header_text].
  apply String.eqb_neq in Hph, Hvh. rewrite Hph, Hvh. cbn [negb fst snd].
  split.
  - apply (map_nth_error
             (fun rec : BoundaryRecord =>
                match last_row_for ph (ADM_PCODE rec) rows with
                | Some r => set_Population (r vh) rec
                | None => rec
                end) i B Hi).
  - clear. induction rows as [|r0 rows IH]; intros r Hr; [discriminate|].
    cbn [last_row_for] in Hr.
    destruct (last_row_for ph (ADM_PCODE rec) rows) as [r'|].
    + inversion Hr; subst r'. destruct (IH r eq_refl). split; [now right|assumption].
    + destruct (cell_is (r0 ph) (ADM_PCODE rec)) eqn:E; [|discriminate].
      inversion Hr; subst r0. apply cell_is_spec in E. split; [now left|assumption].
Qed.

(** The specification's end-to-end example: the unit KE01 ends with the
    cell ["500000"] of the row, a string. *)
Lemma analyze_tabular_stores_raw_cell_example :
  nth_error (snd (fst (analyze_tabular env_ken cfg_default B_ken ken_adm1 "KEN" 1))) 0
  = Some (boundary 0 "KEN" 1 "KE01" (CStr "500000") "POLYGON A").
Proof.
  apply (proj1 (analyze_tabular_stores_raw_cell env_ken cfg_default B_ken ken_adm1
                  "KEN" 1 ["ADM1PCODE"; "T_TL"]
                  [row_of [("ADM1PCODE", CStr "KE01"); ("T_TL", CStr "500000")]]
                  "ADM1PCODE" "T_TL" eq_refl eq_refl
                  ltac:(discriminate) ltac:(discriminate)
                  0%nat (boundary 0 "KEN" 1 "KE01" CNull "POLYGON A") eq_refl)).
Defined.

(** ** [update_population] *)

(** C5 (the code aborts where the specification promises independence).  The
    catalog holds a level-1 table for BBB and no dataset for AAA.
    - Run for AAA then BBB: [find_resource] raises for (AAA, 1), nothing in
      [update_population] catches it, the call raises, and (BBB, 1) is never
      attempted: the log has no entry for BBB and the frame is as it was.
    - Run for BBB alone: (BBB, 1) is updated from its table. *)
Theorem update_population_aborts_on_raise :
  update_population env_bbb cfg_default B_two ["AAA"; "BBB"]
  = (B_two,
     [(Info, "AAA: Processing population at adm1");
      (Warning, "AAA: Could not find PS dataset")],
     Raise AttributeError)
  /\ update_population env_bbb cfg_default B_two ["BBB"]
     = ([boundary 0 "AAA" 1 "A01" CNull "POLYGON A";
         boundary 1 "BBB" 1 "B01" (CStr "42") "POLYGON B"],
        [(Info, "BBB: Processing population at adm1")],
        Ok [(1, ["BBB"])]).
Proof. split; vm_compute; reflexivity. Qed.

(** ** [update_hdx_resource] *)

(** C7 (the code loses fresh rows where the specification promises them).  Both
    countries were updated at both levels.  The pass for level 1 appends the
    fresh level-1 rows under their boundary labels 0 and 1.  The pass for
    level 2 drops the prior level-2 rows by their labels 1 and 3, and the
    fresh row of (BBB, 1), which carries the label 1, goes with them.  The
    merged table has no row for (BBB, 1), fresh or prior, while the rows the
    specification words contain the fresh one. *)
Theorem update_hdx_resource_loses_fresh_row :
  update_hdx_resource env_overall B_levels "overall-population" uc_both
  = ([],
     Ok (Some ([mkRow 0 "AAA" 1 "A1" (CInt 11) [];
                mkRow 2 "AAA" 2 "A2" (CInt 21) [];
                mkRow 3 "BBB" 2 "B2" (CInt 41) [];
                mkRow 4 "CCC" 1 "C1" (CInt 50) []],
               overall_csv)))
  /\ In (mkRow 1 "BBB" 1 "B1" (CInt 31) [])
        (spec_merged_rows B_levels (read_csv env_overall "/tmp/population.csv") uc_both)
  /\ forall r,
       In r (merge_tables B_levels (read_csv env_overall "/tmp/population.csv") uc_both) ->
       ~ (alpha_3 r = "BBB" /\ ADM_LEVEL r = 1).
Proof.
  split; [vm_compute; reflexivity|]. split.
  - vm_compute. tauto.
  - intros r Hin [Ha Hl]. vm_compute in Hin.
    destruct Hin as [<-|[<-|[<-|[<-|[]]]]]; simpl in Ha, Hl; discriminate.
Qed.

(** ** The aggregators write the population column only *)

Lemma set_Population_own (r : BoundaryRecord) : r = set_Population (Population r) r.
Proof. destruct r as [[l a lv p v o] g]. reflexivity. Qed.

Lemma only_population_changed_refl (B : boundaries) : only_population_changed B B.
Proof.
  unfold only_population_changed. induction B as [|r B IH]; constructor;
    [apply set_Population_own|exact IH].
Qed.


Lemma only_population_changed_map (f : BoundaryRecord -> BoundaryRecord)
    (B : boundaries) :
  (forall r, f r = set_Population (Population (f r)) r) ->
  only_population_changed B (map f B).
Proof.
  intro Hf. unfold only_population_changed.
  induction B as [|r B IH]; simpl; constructor; [apply Hf|exact IH].
Qed.




Lemma levels_of_population_only (B B' : boundaries) (iso : string) :
  only_population_changed B B' -> levels_of B' iso = levels_of B iso.
Proof.
  intro H. unfold levels_of. generalize (@nil Z).
  induction H as [|r r' B B' Hr _ IH]; intro s; [reflexivity|].
  rewrite Hr. simpl.
  destruct (String.eqb (alpha_3 r) iso); simpl; apply IH.
Qed.

(** ** [update_population] when [find_resource] returns *)






Lemma pairs_of_population_only (B B' : boundaries) (countries : list string) :
  only_population_changed B B' -> pairs_of B' countries = pairs_of B countries.
Proof.
  intro H. unfold pairs_of. induction countries as [|iso countries IH]; simpl;
    [reflexivity|].
  now rewrite IH, (levels_of_population_only B B' iso H).
Qed.




(** ** What a pair adds to the dict *)

Lemma uc_get_new_level (uc : updated_map) (level level' : Z) :
  uc_get (List.app uc [(level, [])]) level' = uc_get uc level'.
Proof.
  induction uc as [|[l isos] uc IH]; simpl.
  - destruct (level =? level'); reflexivity.
  - destruct (l =? level'); [reflexivity|exact IH].
Qed.

Lemma level_in_new_level (uc : updated_map) (level : Z) :
  level_in level (List.app uc [(level, [])]) = true.
Proof.
  unfold level_in. rewrite existsb_app. simpl.
  rewrite Z.eqb_refl, orb_true_r. reflexivity.
Qed.

Lemma uc_get_append (uc : updated_map) (level level' : Z) (iso : string) :
  level_in level uc = true ->
  uc_get (uc_append uc level iso) level'
  = if level' =? level then List.app (uc_get uc level) [iso] else uc_get uc level'.
Proof.
  unfold level_in.
  induction uc as [|[l isos] uc IH]; simpl; intro Hin; [discriminate|].
  destruct (l =? level) eqn:El.
  - apply Z.eqb_eq in El. subst l. simpl. rewrite (Z.eqb_sym level' level).
    destruct (level =? level'); reflexivity.
  - simpl in Hin. simpl. specialize (IH Hin).
    destruct (l =? level') eqn:El'.
    + apply Z.eqb_eq in El'. subst l. rewrite El. reflexivity.
    + exact IH.
Qed.

(** X3.  A pair that is processed to the end adds its country to its level
    exactly when the aggregator chosen for it reports success, and changes no
    other membership of the dict. *)
Theorem process_pair_membership (env : Collaborators) (cfg : Configuration)
    (st st' : run_state) (iso : string) (level : Z) :
  process_pair env cfg st iso level = (st', None) ->
  forall (iso' : string) (level' : Z),
    In iso' (uc_get (updated_countries st') level')
    <-> In iso' (uc_get (updated_countries st) level')
        \/ (iso' = iso /\ level' = level
            /\ pair_succeeds env cfg (frame st) iso level).
Proof.
  unfold process_pair, pair_succeeds.
  set (uc1 := if level_in level (updated_countries st) then updated_countries st
              else List.app (updated_countries st) [(level, [])]).
  assert (G1 : forall l, uc_get uc1 l = uc_get (updated_countries st) l).
  { intro l. unfold uc1. destruct (level_in level (updated_countries st));
      [reflexivity|apply uc_get_new_level]. }
  assert (I1 : level_in level uc1 = true).
  { unfold uc1. destruct (level_in level (updated_countries st)) eqn:E;
      [exact E|apply level_in_new_level]. }
  destruct (find_resource env cfg iso level) as [flog found].
  destruct found as [[[resource|] resource_type]|e]; [| |discriminate].
  - set (res := match resource_type with
                | Geotiff => analyze_raster env (frame st) resource iso level
                | Csv => analyze_tabular env cfg (frame st) resource iso level
                end).
    destruct res as [[alog B'] updated] eqn:Eres.
    intro H. inversion H; subst st'; clear H. cbn [updated_countries].
    intros iso' level'.
    assert (Hsucc : (exists (flog0 : list log_entry) (resource0 : Resource)
                            (resource_type0 : kind),
                        (flog, Ok (Some resource, resource_type))
                        = (flog0, Ok (Some resource0, resource_type0))
                        /\ truthy (snd match resource_type0 with
                                       | Geotiff => analyze_raster env (frame st) resource0 iso level
                                       | Csv => analyze_tabular env cfg (frame st) resource0 iso level
                                       end) = true)
                    <-> truthy updated = true).
    { split.
      - intros [f0 [r0 [k0 [E T]]]]. inversion E; subst. fold res in T.
        rewrite Eres in T. exact T.
      - intro T. exists flog, resource, resource_type. split; [reflexivity|].
        fold res. rewrite Eres. exact T. }
    rewrite Hsucc.
    destruct (truthy updated && negb (str_in iso (uc_get uc1 level))) eqn:Ec.
    + apply andb_true_iff in Ec. destruct Ec as [Tu _].
      rewrite (uc_get_append uc1 level level' iso I1), !G1.
      destruct (level' =? level) eqn:El.
      * apply Z.eqb_eq in El. subst level'. rewrite in_app_iff. simpl.
        split.
        -- intros [H|[H|[]]]; [now left|right; auto].
        -- intros [H|[H _]]; [now left|right; left; auto].
      * apply Z.eqb_neq in El. split; [now left|].
        intros [H|[_ [H _]]]; [exact H|contradiction].
    + rewrite G1. split; [now left|].
      intros [H|[Hi [Hl Tu]]]; [exact H|]. subst iso' level'.
      rewrite Tu in Ec. simpl in Ec. apply negb_false_iff in Ec.
      apply str_in_In in Ec. rewrite G1 in Ec. exact Ec.
  - intro H. inversion H; subst st'; clear H. cbn [updated_countries].
    intros iso' level'. rewrite G1. split; [now left|].
    intros [H|[_ [_ [f0 [r0 [k0 [E _]]]]]]]; [exact H|discriminate E].
Qed.

Lemma process_pair_membership_example :
  In "BBB" (uc_get [(1, ["BBB"])] 1)
  <-> In "BBB" (uc_get [] 1)
      \/ ("BBB" = "BBB" /\ 1 = 1
          /\ pair_succeeds env_bbb cfg_default B_two "BBB" 1).
Proof.
  apply (process_pair_membership env_bbb cfg_default (mkRun B_two [] [])
           (mkRun [boundary 0 "AAA" 1 "A01" CNull "POLYGON A";
                   boundary 1 "BBB" 1 "B01" (CStr "42") "POLYGON B"]
                  [(Info, "BBB: Processing population at adm1")]
                  [(1, ["BBB"])])
           "BBB" 1 ltac:(vm_compute; reflexivity) "BBB" 1).
Defined.

(** ** The order of [sort_values] *)

Section Lexicographic.

Context {A B : Type}.
Variable ca : A -> A -> comparison.
Variable cb : B -> B -> comparison.
Hypothesis ca_ok : compare_ok ca.
Hypothesis cb_ok : compare_ok cb.

Lemma lex_ok : compare_ok (lex ca cb).
Proof.
  destruct ca_ok as [aeq [arefl [atrans aanti]]].
  destruct cb_ok as [beq [brefl [btrans banti]]].
  unfold compare_ok, lex. repeat split.
  - intros [xa xb] [ya yb]; simpl. destruct (ca xa ya) eqn:E; try discriminate.
    intro H. apply aeq in E. apply beq in H. congruence.
  - intros [xa xb]; simpl. rewrite arefl. apply brefl.
  - intros [xa xb] [ya yb] [za zb]; simpl.
    destruct (ca xa ya) eqn:E1; try discriminate;
      destruct (ca ya za) eqn:E2; try discriminate; intros H1 H2.
    + apply aeq in E1, E2. subst. rewrite arefl. eauto.
    + apply aeq in E1. subst. now rewrite E2.
    + apply aeq in E2. subst. now rewrite E1.
    + now rewrite (atrans _ _ _ E1 E2).
  - intros [xa xb] [ya yb]; simpl. rewrite (aanti xa ya).
    destruct (ca xa ya); simpl; [apply banti|reflexivity|reflexivity].
Qed.

End Lexicographic.

Lemma ascii_compare_lt_trans (a b c : ascii) :
  Ascii.compare a b = Lt -> Ascii.compare b c = Lt -> Ascii.compare a c = Lt.
Proof. unfold Ascii.compare. rewrite !N.compare_lt_iff. lia. Qed.

Lemma ascii_compare_refl (a : ascii) : Ascii.compare a a = Eq.
Proof. unfold Ascii.compare. apply N.compare_refl. Qed.

Lemma string_compare_refl (s : string) : String.compare s s = Eq.
Proof. induction s as [|c s IH]; simpl; [reflexivity|]. now rewrite ascii_compare_refl. Qed.

Lemma string_compare_lt_trans (a b c : string) :
  String.compare a b = Lt -> String.compare b c = Lt -> String.compare a c = Lt.
Proof.
  revert b c; induction a as [|x a IH]; intros [|y b] [|z c]; simpl; try congruence.
  destruct (Ascii.compare x y) eqn:Exy; try discriminate;
    destruct (Ascii.compare y z) eqn:Eyz; try discriminate; intros H1 H2.
  - apply Ascii.compare_eq_iff in Exy, Eyz. subst.
    rewrite ascii_compare_refl. eauto.
  - apply Ascii.compare_eq_iff in Exy. subst. now rewrite Eyz.
  - apply Ascii.compare_eq_iff in Eyz. subst. now rewrite Exy.
  - now rewrite (ascii_compare_lt_trans x y z Exy Eyz).
Qed.

Lemma string_compare_ok : compare_ok String.compare.
Proof.
  unfold compare_ok. repeat split.
  - apply String.compare_eq_iff.
  - apply string_compare_refl.
  - apply string_compare_lt_trans.
  - intros x y. apply String.compare_antisym.
Qed.

Lemma Z_compare_ok : compare_ok Z.compare.
Proof.
  unfold compare_ok. repeat split.
  - apply Z.compare_eq.
  - apply Z.compare_refl.
  - intros x y z. rewrite !Z.compare_lt_iff. lia.
  - intros x y. apply Z.compare_antisym.
Qed.

Lemma key_compare_lex (a b : PopulationRow) :
  key_compare a b
  = lex String.compare (lex Z.compare String.compare) (sort_key a) (sort_key b).
Proof. reflexivity. Qed.

Lemma key_le_total (a b : PopulationRow) : key_leb a b = false -> key_le b a.
Proof.
  unfold key_le, key_leb. rewrite !key_compare_lex.
  destruct (lex_ok _ _ string_compare_ok (lex_ok _ _ Z_compare_ok string_compare_ok))
    as [_ [_ [_ anti]]].
  rewrite (anti (sort_key a) (sort_key b)).
  destruct (lex String.compare (lex Z.compare String.compare) (sort_key a) (sort_key b));
    simpl; congruence.
Qed.

Lemma key_le_trans (a b c : PopulationRow) : key_le a b -> key_le b c -> key_le a c.
Proof.
  unfold key_le, key_leb. rewrite !key_compare_lex.
  destruct (lex_ok _ _ string_compare_ok (lex_ok _ _ Z_compare_ok string_compare_ok))
    as [keq [_ [ktrans _]]].
  destruct (lex String.compare (lex Z.compare String.compare) (sort_key a) (sort_key b))
    eqn:E1; try discriminate;
    destruct (lex String.compare (lex Z.compare String.compare) (sort_key b) (sort_key c))
      eqn:E2; try discriminate; intros _ _.
  - apply keq in E1. rewrite E1, E2. reflexivity.
  - apply keq in E1. rewrite E1, E2. reflexivity.
  - apply keq in E2. rewrite <- E2, E1. reflexivity.
  - rewrite (ktrans _ _ _ E1 E2). reflexivity.
Qed.

Lemma insert_row_perm (r : PopulationRow) (t : table) :
  Permutation (insert_row r t) (r :: t).
Proof.
  induction t as [|r' t IH]; simpl; [apply Permutation_refl|].
  destruct (key_leb r r'); [apply Permutation_refl|].
  eapply Permutation_trans; [apply perm_skip, IH|apply perm_swap].
Qed.

Lemma sort_values_perm (t : table) : Permutation (sort_values t) t.
Proof.
  induction t as [|r t IH]; simpl; [constructor|].
  eapply Permutation_trans; [apply insert_row_perm|now apply perm_skip].
Qed.

Lemma insert_row_sorted (r : PopulationRow) (t : table) :
  StronglySorted key_le t -> StronglySorted key_le (insert_row r t).
Proof.
  induction t as [|r' t IH]; simpl; intro H.
  - constructor; constructor.
  - inversion H as [|x l Ht Hall]; subst.
    destruct (key_leb r r') eqn:E.
    + constructor; [exact H|]. constructor; [exact E|].
      eapply Forall_impl; [|exact Hall]. intros x Hx.
      exact (key_le_trans r r' x E Hx).
    + constructor; [now apply IH|].
      apply key_le_total in E.
      apply (Permutation_Forall (Permutation_sym (insert_row_perm r t))).
      constructor; assumption.
Qed.

Lemma sort_values_sorted (t : table) : StronglySorted key_le (sort_values t).
Proof.
  induction t as [|r t IH]; simpl; [constructor|now apply insert_row_sorted].
Qed.

(** ** [update_hdx_resource] when no label is shared *)

Lemma NoDup_map_eq {A K : Type} (k : A -> K) (l : list A) (a b : A) :
  NoDup (map k l) -> In a l -> In b l -> k a = k b -> a = b.
Proof.
  induction l as [|x l IH]; simpl; intros Hnd Ha Hb E; [contradiction|].
  inversion Hnd as [|y ys Hnotin Hnd']; subst.
  destruct Ha as [->|Ha], Hb as [->|Hb]; [reflexivity| | |now apply IH].
  - exfalso. apply Hnotin. rewrite E. now apply in_map.
  - exfalso. apply Hnotin. rewrite <- E. now apply in_map.
Qed.

Lemma filter_all_false {A : Type} (p : A -> bool) (l : list A) :
  (forall x, In x l -> p x = false) -> filter p l = [].
Proof.
  induction l as [|a l IH]; simpl; intro H; [reflexivity|].
  rewrite (H a) by now left. apply IH. intros x Hx. apply H. now right.
Qed.

Lemma filter_all_true {A : Type} (p : A -> bool) (l : list A) :
  (forall x, In x l -> p x = true) -> filter p l = l.
Proof.
  induction l as [|a l IH]; simpl; intro H; [reflexivity|].
  rewrite (H a) by now left. f_equal. apply IH. intros x Hx. apply H. now right.
Qed.

Lemma filter_twice {A : Type} (p q : A -> bool) (l : list A) :
  filter q (filter p l) = filter (fun x => p x && q x) l.
Proof.
  induction l as [|a l IH]; simpl; [reflexivity|].
  destruct (p a); simpl; [destruct (q a)|]; now rewrite IH.
Qed.

Lemma label_listed (l : Z) (t : table) :
  existsb (Z.eqb l) (map label t) = true <-> exists r, In r t /\ label r = l.
Proof.
  rewrite existsb_exists. split.
  - intros [x [Hx E]]. apply Z.eqb_eq in E. subst x.
    apply in_map_iff in Hx. destruct Hx as [r [E Hr]]. eauto.
  - intros [r [Hr E]]. exists l. split; [|apply Z.eqb_refl].
    rewrite <- E. now apply in_map.
Qed.

(** With unique labels, dropping the labels of the selected rows drops the
    selected rows and no other. *)
Lemma drop_labels_selected (m : PopulationRow -> bool) (P : table) :
  NoDup (map label P) ->
  drop_labels (map label (filter m P)) P = filter (fun r => negb (m r)) P.
Proof.
  intro Hnd. unfold drop_labels. apply filter_ext_in. intros p Hp. f_equal.
  destruct (m p) eqn:Em.
  - apply label_listed. exists p. split; [|reflexivity]. apply filter_In. auto.
  - destruct (existsb (Z.eqb (label p)) (map label (filter m P))) eqn:E; [|reflexivity].
    apply label_listed in E. destruct E as [r [Hr El]]. apply filter_In in Hr.
    destruct Hr as [Hr Hm].
    rewrite (NoDup_map_eq label P r p Hnd Hr Hp El) in Hm. congruence.
Qed.

(** Rows whose labels are not listed stay. *)
Lemma drop_labels_unlisted (ls : list Z) (F : table) :
  (forall f, In f F -> ~ In (label f) ls) -> drop_labels ls F = F.
Proof.
  intro H. unfold drop_labels. apply filter_all_true. intros f Hf.
  apply negb_true_iff. destruct (existsb (Z.eqb (label f)) ls) eqn:E; [|reflexivity].
  apply existsb_exists in E. destruct E as [l [Hl E]]. apply Z.eqb_eq in E. subst l.
  exfalso. now apply (H f).
Qed.

(** The loop of lines 166-171 from a table [P ++ F]: [P] are prior rows
    with unique labels, [F] are fresh rows appended so far; no fresh row and
    no boundary row shares a label with a prior row, and no fresh row lies in
    a slice still to come. *)
Lemma fold_merge_level (U : table) (todo : updated_map) (P F : table) :
  NoDup (map fst todo) ->
  NoDup (map label P) ->
  (forall p f, In p P -> In f F -> label p <> label f) ->
  (forall p u, In p P -> In u U -> label p <> label u) ->
  (forall f e, In f F -> In e todo -> slice_mask (fst e) (snd e) f = false) ->
  fold_left (merge_level U) todo (List.app P F)
  = List.app (filter (fun r => negb (in_some_slice todo r)) P)
      (List.app F
         (List.concat (map (fun e => filter (slice_mask (fst e) (snd e)) U) todo))).
Proof.
  revert P F; induction todo as [|[level isos] todo IH];
    intros P F Hkeys Hnd HPF HPU HF.
  - simpl. rewrite app_nil_r. f_equal. symmetry. apply filter_all_true. reflexivity.
  - inversion Hkeys as [|k ks Hnotin Hkeys']; subst.
    cbn [fold_left merge_level map List.concat fst snd].
    set (m := slice_mask level isos).
    assert (HmF : filter m F = []).
    { apply filter_all_false. intros f Hf. apply (HF f (level, isos) Hf). now left. }
    rewrite filter_app, HmF, app_nil_r.
    unfold drop_labels at 1. rewrite filter_app. fold (drop_labels (map label (filter m P)) P).
    fold (drop_labels (map label (filter m P)) F).
    rewrite (drop_labels_selected m P Hnd).
    rewrite (drop_labels_unlisted (map label (filter m P)) F).
    2:{ intros f Hf Hin. apply in_map_iff in Hin. destruct Hin as [p [E Hp]].
        apply filter_In in Hp. apply (HPF p f); tauto. }
    rewrite <- app_assoc.
    rewrite (IH (filter (fun r => negb (m r)) P) (List.app F (filter m U))).
    + rewrite filter_twice, <- app_assoc. f_equal.
      apply filter_ext. intro r. unfold in_some_slice. simpl. fold m.
      now rewrite negb_orb.
    + exact Hkeys'.
    + apply (NoDup_map_filter label). exact Hnd.
    + intros p f Hp Hf. apply filter_In in Hp. apply in_app_or in Hf.
      destruct Hf as [Hf|Hf].
      * apply HPF; tauto.
      * apply filter_In in Hf. apply HPU; tauto.
    + intros p u Hp Hu. apply filter_In in Hp. apply HPU; tauto.
    + intros f e Hf He. apply in_app_or in Hf. destruct Hf as [Hf|Hf].
      * apply HF; [exact Hf|now right].
      * apply filter_In in Hf. destruct Hf as [_ Hm]. unfold m, slice_mask in Hm.
        apply andb_true_iff in Hm. destruct Hm as [_ Hl]. apply Z.eqb_eq in Hl.
        unfold slice_mask. apply andb_false_iff. right. apply Z.eqb_neq.
        intro E. apply Hnotin. rewrite <- Hl, E.
        now apply (in_map fst).
Qed.

Lemma reindex_labels_ge (i l : Z) (t : table) :
  In l (map label (reindex_from i t)) -> i <= l.
Proof.
  revert i; induction t as [|r t IH]; simpl; intros i H; [contradiction|].
  destruct H as [<-|H]; [lia|]. apply IH in H. lia.
Qed.

(** [read_csv] gives every row a label of its own. *)
Lemma read_csv_labels (env : Collaborators) (path : string) :
  NoDup (map label (read_csv env path)).
Proof.
  unfold read_csv. generalize 0. induction (csv_rows env path) as [|r t IH];
    intro i; simpl; constructor.
  - intro H. apply reindex_labels_ge in H. lia.
  - apply IH.
Qed.

(** X4.  The merged table is always sorted by (country code, level, pcode).
    When the levels of [updated_countries] are distinct keys, the prior rows
    have labels of their own and no boundary row shares an index label with a
    prior row, the merged table holds exactly the rows the specification
    words: the prior rows outside every updated slice, untouched, and the
    fresh boundary rows, without geometry, of every updated slice. *)
Theorem merge_tables_without_shared_labels (B : boundaries) (prior : table)
    (uc : updated_map) :
  StronglySorted key_le (merge_tables B prior uc)
  /\ (NoDup (map fst uc) ->
      NoDup (map label prior) ->
      (forall (p : PopulationRow) (b : BoundaryRecord),
         In p prior -> In b B -> label p <> label b) ->
      merge_tables B prior uc = sort_values (spec_merged_rows B prior uc)
      /\ Permutation (merge_tables B prior uc) (spec_merged_rows B prior uc)).
Proof.
  split; [apply sort_values_sorted|].
  intros Hkeys Hnd Hlabels.
  assert (E : merge_tables B prior uc = sort_values (spec_merged_rows B prior uc)).
  { unfold merge_tables, spec_merged_rows. f_equal.
    rewrite <- (app_nil_r prior) at 1.
    rewrite (fold_merge_level (drop_geometry B) uc prior [] Hkeys Hnd).
    - reflexivity.
    - intros p f _ [].
    - intros p u Hp Hu. unfold drop_geometry in Hu. apply in_map_iff in Hu.
      destruct Hu as [b [<- Hb]]. now apply Hlabels.
    - intros f e []. }
  split; [exact E|]. rewrite E. apply sort_values_perm.
Qed.

Lemma merge_tables_without_shared_labels_example :
  merge_tables B_apart (read_csv env_overall "/tmp/population.csv") uc_both
  = [mkRow 100 "AAA" 1 "A1" (CInt 11) [];
     mkRow 102 "AAA" 2 "A2" (CInt 21) [];
     mkRow 101 "BBB" 1 "B1" (CInt 31) [];
     mkRow 103 "BBB" 2 "B2" (CInt 41) [];
     mkRow 4 "CCC" 1 "C1" (CInt 50) []].
Proof.
  transitivity (sort_values (spec_merged_rows B_apart
                               (read_csv env_overall "/tmp/population.csv") uc_both));
    [|vm_compute; reflexivity].
  apply (proj2 (merge_tables_without_shared_labels B_apart
                  (read_csv env_overall "/tmp/population.csv") uc_both)).
  - simpl. repeat constructor; simpl; intuition discriminate.
  - apply read_csv_labels.
  - intros p b Hp Hb. vm_compute in Hp, Hb.
    destruct Hp as [<-|[<-|[<-|[<-|[<-|[]]]]]];
      destruct Hb as [<-|[<-|[<-|[<-|[]]]]]; discriminate.
Defined.

(** ** End to end *)

(** The specification's end-to-end example: country KEN, level 1, a
    table with the headers ADM1PCODE and T_TL and the row (KE01, "500000"),
    a frame that holds the pcode KE01.  After the run the unit holds the cell
    of the row, the string ["500000"], and KEN is in the list of level 1. *)
Example update_population_end_to_end :
  update_population env_ken_level1 cfg_default B_ken_level1 ["KEN"]
  = ([boundary 0 "KEN" 1 "KE01" (CStr "500000") "POLYGON A"],
     [(Info, "KEN: Processing population at adm1")],
     Ok [(1, ["KEN"])]).
Proof. vm_compute. reflexivity. Qed.

(** ** The levels of a country *)

Lemma set_add_In (x y : Z) (s : list Z) : In x (set_add y s) <-> x = y \/ In x s.
Proof.
  induction s as [|z s IH]; simpl; [intuition|].
  destruct (y <? z) eqn:E1; [simpl; intuition|].
  destruct (y =? z) eqn:E2.
  - apply Z.eqb_eq in E2. subst. simpl. intuition.
  - simpl. rewrite IH. intuition.
Qed.

Lemma set_add_ascending (y : Z) (s : list Z) :
  StronglySorted Z.lt s -> StronglySorted Z.lt (set_add y s).
Proof.
  induction s as [|z s IH]; simpl; intro H; [repeat constructor|].
  inversion H as [|a l Hs Hall]; subst.
  destruct (y <? z) eqn:E1.
  - apply Z.ltb_lt in E1. constructor; [exact H|]. constructor; [exact E1|].
    eapply Forall_impl; [|exact Hall]. intros a Ha. simpl in Ha. lia.
  - destruct (y =? z) eqn:E2; [exact H|].
    apply Z.ltb_ge in E1. apply Z.eqb_neq in E2.
    constructor; [now apply IH|].
    apply Forall_forall. intros a Ha. apply set_add_In in Ha.
    destruct Ha as [->|Ha]; [lia|].
    rewrite Forall_forall in Hall. now apply Hall.
Qed.

Lemma ascending_NoDup (s : list Z) : StronglySorted Z.lt s -> NoDup s.
Proof.
  induction 1 as [|a l Hs IH Hall]; constructor; [|exact IH].
  intro Hin. rewrite Forall_forall in Hall. specialize (Hall a Hin). lia.
Qed.

Lemma fold_set_add (rows : list BoundaryRecord) (s : list Z) :
  StronglySorted Z.lt s ->
  StronglySorted Z.lt
    (fold_left (fun s (r : BoundaryRecord) => set_add (ADM_LEVEL r) s) rows s)
  /\ forall l,
       In l (fold_left (fun s (r : BoundaryRecord) => set_add (ADM_LEVEL r) s) rows s)
       <-> In l s \/ exists r : BoundaryRecord, In r rows /\ ADM_LEVEL r = l.
Proof.
  revert s; induction rows as [|r rows IH]; intros s Hs; simpl.
  - split; [exact Hs|]. intro l. split; [now left|].
    intros [H|[r [[] _]]]. exact H.
  - destruct (IH (set_add (ADM_LEVEL r) s) (set_add_ascending _ _ Hs)) as [H1 H2].
    split; [exact H1|]. intro l. rewrite H2, set_add_In. split.
    + intros [[->|H]|[r' [Hr' E]]]; eauto.
    + intros [H|[r' [[->|Hr'] E]]]; eauto.
Qed.

(** X5.  The levels that [update_population] visits for a country are the
    admin levels of the country's rows in the boundary table, each taken
    once: the list has no duplicate, and a level is in it exactly when some
    row of the country has that level. *)
Theorem levels_of_distinct (B : boundaries) (iso : string) :
  NoDup (levels_of B iso)
  /\ forall l : Z,
       In l (levels_of B iso)
       <-> exists r : BoundaryRecord, In r B /\ alpha_3 r = iso /\ ADM_LEVEL r = l.
Proof.
  unfold levels_of.
  destruct (fold_set_add (filter (fun r : BoundaryRecord => String.eqb (alpha_3 r) iso) B)
                         [] (SSorted_nil Z.lt)) as [H1 H2].
  split; [now apply ascending_NoDup|].
  intro l. rewrite H2. split.
  - intros [[]|[r [Hr E]]]. apply filter_In in Hr. destruct Hr as [Hr Ha].
    apply String.eqb_eq in Ha. eauto.
  - intros [r [Hr [Ha E]]]. right. exists r. split; [|exact E].
    apply filter_In. split; [exact Hr|]. now apply String.eqb_eq.
Qed.

(** ** What [find_resource] can return *)

Lemma filter_head {A : Type} (p : A -> bool) (l : list A) (r : A) (rest : list A) :
  filter p l = r :: rest ->
  exists pre post,
    l = List.app pre (r :: post) /\ p r = true /\ forall x, In x pre -> p x = false.
Proof.
  induction l as [|a l IH]; simpl; [discriminate|].
  destruct (p a) eqn:E.
  - intro H. inversion H; subst. exists [], l. split; [reflexivity|].
    split; [exact E|]. intros x [].
  - intro H. destruct (IH H) as [pre [post [Hl [Hr Hpre]]]].
    exists (a :: pre), post. split; [simpl; now rewrite Hl|].
    split; [exact Hr|]. intros x [->|Hx]; auto.
Qed.

Lemma narrow_by_year_sublist (l l' : list Resource) (r : Resource) :
  narrow_by_year l = Ok l' -> In r l' -> In r l.
Proof.
  unfold narrow_by_year. destruct (py_max (map int (year_tokens l))) as [m|e];
    [|discriminate].
  destruct (List.length (filter (fun r0 => contains (str m) (name r0)) l) =? 1)%nat;
    intro H; inversion H; subst; [|auto].
  intro Hin. apply filter_In in Hin. tauto.
Qed.

(** X6.  Whatever [find_resource] returns is backed by the catalog:
    - a table (kind csv) is a csv resource of the country's dataset whose
      name matches the level pattern;
    - a raster (kind geotiff) is returned only when the country's dataset is
      missing, and it is the first geotiff resource of the fallback dataset
      whose name starts with four digits and [_constrained];
    - no resource comes with the kind geotiff, never with csv, and in two
      cases only: the dataset is missing and the fallback holds no such
      raster, or the dataset is found and none of its resources is a csv
      matching the level; in the second case the fallback dataset is not
      consulted. *)
Theorem find_resource_sound (env : Collaborators) (cfg : Configuration)
    (iso : string) (level : Z) (flog : list log_entry)
    (found : option Resource) (resource_type : kind) :
  find_resource env cfg iso level = (flog, Ok (found, resource_type)) ->
  match found, resource_type with
  | Some r, Csv =>
      exists dataset,
        read_from_hdx env (dataset_name cfg iso) = Some dataset
        /\ In r (get_resources dataset)
        /\ file_type r = "csv"
        /\ resource_name_match env cfg iso level (name r) = true
  | Some r, Geotiff =>
      read_from_hdx env (dataset_name cfg iso) = None
      /\ exists dataset pre post,
           read_from_hdx env (fallback_name env iso) = Some dataset
           /\ get_resources dataset = List.app pre (r :: post)
           /\ is_constrained_geotiff r = true
           /\ forall x, In x pre -> is_constrained_geotiff x = false
  | None, Geotiff =>
      (read_from_hdx env (dataset_name cfg iso) = None
       /\ exists dataset,
            read_from_hdx env (fallback_name env iso) = Some dataset
            /\ forall x, In x (get_resources dataset) -> is_constrained_geotiff x = false)
      \/ (exists dataset,
            read_from_hdx env (dataset_name cfg iso) = Some dataset
            /\ forall x, In x (get_resources dataset) ->
                         is_level_csv env cfg iso level x = false)
  | None, Csv => False
  end.
Proof.
  unfold find_resource.
  destruct (read_from_hdx env (dataset_name cfg iso)) as [d|] eqn:Hd.
  - set (m := filter (is_level_csv env cfg iso level) (get_resources d)).
    destruct (List.length m =? 0)%nat eqn:H0.
    + intro H. inversion H; subst. right. exists d. split; [reflexivity|].
      intros x Hx. destruct (is_level_csv env cfg iso level x) eqn:E; [|reflexivity].
      assert (Hin : In x m) by (apply filter_In; auto).
      apply Nat.eqb_eq in H0. destruct m; [contradiction|discriminate].
    + destruct (if (1 <? List.length m)%nat then narrow_by_year m else Ok m)
        as [l|e] eqn:Hn; [|discriminate].
      destruct l as [|r l]; [discriminate|].
      intro H. inversion H; subst.
      assert (Hin : In r m).
      { destruct (1 <? List.length m)%nat.
        - apply (narrow_by_year_sublist m (r :: l) r Hn). now left.
        - inversion Hn as [Hm']. rewrite Hm'. now left. }
      apply filter_In in Hin. destruct Hin as [Hin Hm].
      unfold is_level_csv in Hm. apply andb_true_iff in Hm. destruct Hm as [Hc Hm].
      exists d. repeat split; auto. now apply String.eqb_eq.
  - destruct (read_from_hdx env (fallback_name env iso)) as [d|] eqn:Hf; [|discriminate].
    destruct (filter is_constrained_geotiff (get_resources d)) as [|r rest] eqn:Hg;
      intro H; inversion H; subst.
    + left. split; [reflexivity|]. exists d. split; [reflexivity|].
      intros x Hx. destruct (is_constrained_geotiff x) eqn:E; [|reflexivity].
      assert (Hin : In x (filter is_constrained_geotiff (get_resources d)))
        by (apply filter_In; auto).
      rewrite Hg in Hin. contradiction.
    + split; [reflexivity|].
      destruct (filter_head _ _ _ _ Hg) as [pre [post [Hl [Hr Hpre]]]].
      exists d, pre, post. auto.
Qed.

Lemma find_resource_sound_example :
  exists dataset,
    read_from_hdx env_two_years (dataset_name cfg_default "AAA") = Some dataset
    /\ In (csv_resource "aaa_adm1_2021.csv") (get_resources dataset)
    /\ file_type (csv_resource "aaa_adm1_2021.csv") = "csv"
    /\ resource_name_match env_two_years cfg_default "AAA" 1
         (name (csv_resource "aaa_adm1_2021.csv")) = true.
Proof.
  apply (find_resource_sound env_two_years cfg_default "AAA" 1 []
           (Some (csv_resource "aaa_adm1_2021.csv")) Csv).
  vm_compute. reflexivity.
Defined.

(** ** The first matching header wins *)

Lemma fold_header_step_keeps_pcode (cfg : Configuration) (level : Z)
    (headers : list string) (p v : option string) :
  truthy p = true -> fst (fold_left (header_step cfg level) headers (p, v)) = p.
Proof.
  revert v; induction headers as [|h hs IH]; intros v Hp; [reflexivity|].
  cbn [fold_left]. unfold header_step at 2. rewrite Hp. cbn [negb]. now apply IH.
Qed.

Lemma fold_header_step_keeps_pop (cfg : Configuration) (level : Z)
    (headers : list string) (p v : option string) :
  truthy v = true -> snd (fold_left (header_step cfg level) headers (p, v)) = v.
Proof.
  revert p; induction headers as [|h hs IH]; intros p Hv; [reflexivity|].
  cbn [fold_left]. unfold header_step at 2. rewrite Hv. cbn [negb]. now apply IH.
Qed.

Lemma fold_header_step_first_pcode (cfg : Configuration) (level : Z)
    (headers : list string) (p v : option string) :
  truthy p = false ->
  match find (fun h => negb (String.eqb h "")
                       && str_in (upper h) (pcode_templates cfg level)) headers with
  | Some h => fst (fold_left (header_step cfg level) headers (p, v)) = Some h
  | None => truthy (fst (fold_left (header_step cfg level) headers (p, v))) = false
  end.
Proof.
  revert p v; induction headers as [|h hs IH]; intros p v Hp; [exact Hp|].
  cbn [fold_left find]. unfold header_step at 2 4. rewrite Hp. cbn [negb].
  destruct (String.eqb h "") eqn:Ee; cbn [negb andb].
  - apply IH. destruct (str_in (upper h) (pcode_templates cfg level)); [|exact Hp].
    simpl. now rewrite Ee.
  - destruct (str_in (upper h) (pcode_templates cfg level)).
    + apply fold_header_step_keeps_pcode. simpl. now rewrite Ee.
    + now apply IH.
Qed.

Lemma fold_header_step_first_pop (cfg : Configuration) (level : Z)
    (headers : list string) (p : option string) :
  snd (fold_left (header_step cfg level) headers (p, None))
  = find (fun h => String.eqb (upper h) "T_TL") headers.
Proof.
  revert p; induction headers as [|h hs IH]; intro p; [reflexivity|].
  cbn [fold_left find]. unfold header_step at 2. cbn [truthy negb].
  destruct (String.eqb (upper h) "T_TL") eqn:E.
  - apply fold_header_step_keeps_pop. simpl.
    apply String.eqb_eq, upper_empty, String.eqb_neq in E. now rewrite E.
  - apply IH.
Qed.

(** X7.  The header roles go to the first header that qualifies, in the
    order of the header list:
    - the pcode header is the first non-empty header that, in upper case, is
      one of the configured templates with the level put in the place of [#];
      when no header qualifies the role stays unresolved;
    - the population header is the first header that reads [T_TL] in upper
      case, and [None] when there is none.
    A later header never replaces an earlier one that qualified. *)
Theorem resolve_headers_first_match (cfg : Configuration) (level : Z)
    (headers : list string) :
  match find (fun h => negb (String.eqb h "")
                       && str_in (upper h) (pcode_templates cfg level)) headers with
  | Some h => fst (resolve_headers cfg level headers) = Some h
  | None => truthy (fst (resolve_headers cfg level headers)) = false
  end
  /\ snd (resolve_headers cfg level headers)
     = find (fun h => String.eqb (upper h) "T_TL") headers.
Proof.
  unfold resolve_headers. split.
  - now apply fold_header_step_first_pcode.
  - apply fold_header_step_first_pop.
Qed.

(** ** Every streamed row is applied or warned about *)




(** ** What [analyze_raster] leaves alone *)

(** X9.  [analyze_raster] writes by pcode: a row of the boundary table whose
    pcode no polygon of the (country, level) scope carries is, after the
    call, the row it was, whatever the download and the sums; no uniqueness
    of pcodes is needed. *)
Theorem analyze_raster_untouched (env : Collaborators) (B : boundaries)
    (resource : Resource) (iso : string) (level : Z) (i : nat)
    (rec : BoundaryRecord) :
  nth_error B i = Some rec ->
  (forall r : BoundaryRecord,
     In r B -> in_scope iso level r = true -> ADM_PCODE r <> ADM_PCODE rec) ->
  nth_error (snd (fst (analyze_raster env B resource iso level))) i = Some rec.
Proof.
  intros Hi Hother. unfold analyze_raster.
  destruct (download resource) as [p|]; [|exact Hi]. cbn [fst snd].
  rewrite fold_raster_row_map.
  rewrite (map_nth_error _ i B Hi). f_equal.
  apply fold_apply_feature_miss. intros f Hf. unfold zonal_stats in Hf.
  apply in_map_iff in Hf. destruct Hf as [r [<- Hr]]. apply filter_In in Hr.
  simpl. apply Hother; tauto.
Qed.

Lemma analyze_raster_untouched_example :
  nth_error (snd (fst (analyze_raster env_raster B_raster tif "AAA" 1))) 3
  = Some (boundary 3 "AAA" 2 "A0101" CNull "POLYGON A").
Proof.
  apply (analyze_raster_untouched env_raster B_raster tif "AAA" 1 3%nat
           (boundary 3 "AAA" 2 "A0101" CNull "POLYGON A") eq_refl).
  intros r Hin Hs. simpl in Hin.
  destruct Hin as [<-|[<-|[<-|[<-|[<-|[]]]]]]; try discriminate Hs; discriminate.
Defined.

(** ** Running again changes nothing *)

Lemma assign_population_only (c : BoundaryRecord -> option cell) (r : BoundaryRecord) :
  assign c r = set_Population (Population (assign c r)) r.
Proof. unfold assign. destruct (c r); [reflexivity|apply set_Population_own]. Qed.

Lemma assign_twice (c : BoundaryRecord -> option cell) (r : BoundaryRecord) :
  blind c -> assign c (assign c r) = assign c r.
Proof.
  intro Hc. unfold assign at 2. destruct (c r) as [v|] eqn:E.
  - unfold assign. rewrite Hc, E. reflexivity.
  - unfold assign. rewrite E. reflexivity.
Qed.

Lemma assign_over (c1 c2 : BoundaryRecord -> option cell) (r : BoundaryRecord) :
  blind c2 -> assign c2 (assign c1 r) = assign (over c2 c1) r.
Proof.
  intro H2. unfold assign, over. destruct (c1 r) as [v|].
  - rewrite H2. destruct (c2 r); reflexivity.
  - destruct (c2 r); reflexivity.
Qed.

Lemma blind_over (c1 c2 : BoundaryRecord -> option cell) :
  blind c1 -> blind c2 -> blind (over c2 c1).
Proof. intros H1 H2 w r. unfold over. now rewrite H1, H2. Qed.

Lemma blind_none : blind (fun _ => None).
Proof. intros w r. reflexivity. Qed.

Lemma map_assign_none (B : boundaries) : map (assign (fun _ => None)) B = B.
Proof. apply map_id. Qed.

(** Frames that differ in populations only stay so under one decision. *)
Lemma map_assign_population_only (c : BoundaryRecord -> option cell)
    (B1 B2 : boundaries) :
  blind c -> only_population_changed B1 B2 ->
  only_population_changed (map (assign c) B1) (map (assign c) B2).
Proof.
  intros Hc H. unfold only_population_changed in *.
  induction H as [|r1 r2 B1 B2 Hr _ IH]; simpl; constructor; [|exact IH].
  assert (E : c r2 = c r1) by (rewrite Hr; apply Hc).
  unfold assign. rewrite E. destruct (c r1) as [v|]; [|exact Hr].
  rewrite Hr. reflexivity.
Qed.

Lemma fold_apply_feature_value (feats : list (string * option float64))
    (r : BoundaryRecord) :
  fold_left (fun rc f => apply_feature f rc) feats r
  = assign (fun r => feature_value feats (ADM_PCODE r)) r.
Proof.
  unfold assign.
  revert r; induction feats as [|f feats IH]; intro r; [reflexivity|].
  cbn [fold_left feature_value]. rewrite IH, apply_feature_pcode.
  destruct (feature_value feats (ADM_PCODE r)) as [v|].
  - unfold apply_feature. destruct (snd f) as [x|]; [|reflexivity].
    destruct (float_truthy x && String.eqb (ADM_PCODE r) (fst f)); reflexivity.
  - unfold apply_feature. destruct (snd f) as [x|]; [|reflexivity].
    destruct (float_truthy x && String.eqb (ADM_PCODE r) (fst f)); reflexivity.
Qed.

Lemma zonal_stats_population_only (env : Collaborators) (iso : string) (level : Z)
    (pop_raster : string) (B1 B2 : boundaries) :
  only_population_changed B1 B2 ->
  zonal_stats env (filter (fun r : BoundaryRecord => in_scope iso level r) B2) pop_raster
  = zonal_stats env (filter (fun r : BoundaryRecord => in_scope iso level r) B1) pop_raster.
Proof.
  unfold zonal_stats.
  induction 1 as [|r1 r2 B1 B2 Hr _ IH]; [reflexivity|].
  cbn [filter].
  assert (Es : in_scope iso level r2 = in_scope iso level r1)
    by (rewrite Hr; reflexivity).
  rewrite Es. destruct (in_scope iso level r1); cbn [map]; [|exact IH].
  rewrite IH. f_equal. rewrite Hr. reflexivity.
Qed.

Lemma pcodes_population_only (B1 B2 : boundaries) :
  only_population_changed B1 B2 ->
  map (fun r : BoundaryRecord => ADM_PCODE r) B2
  = map (fun r : BoundaryRecord => ADM_PCODE r) B1.
Proof.
  induction 1 as [|r1 r2 B1 B2 Hr _ IH]; [reflexivity|].
  simpl. rewrite IH, Hr. reflexivity.
Qed.

(** On frames that differ in populations only, [analyze_raster] logs and
    returns the same, and writes by one decision that is blind to the
    population. *)
Lemma analyze_raster_congruent (env : Collaborators) (B1 B2 : boundaries)
    (resource : Resource) (iso : string) (level : Z) :
  only_population_changed B1 B2 ->
  exists c alog updated,
    blind c
    /\ analyze_raster env B1 resource iso level = (alog, map (assign c) B1, updated)
    /\ analyze_raster env B2 resource iso level = (alog, map (assign c) B2, updated).
Proof.
  intro H. unfold analyze_raster. destruct (download resource) as [p|].
  - exists (fun r => feature_value
                       (zonal_stats env
                          (filter (fun r : BoundaryRecord => in_scope iso level r) B1) p)
                       (ADM_PCODE r)), [], (Some iso).
    split; [intros w r; reflexivity|]. split.
    + rewrite fold_raster_row_map. f_equal. f_equal.
      apply map_ext. intro r. apply fold_apply_feature_value.
    + rewrite (zonal_stats_population_only env iso level p B1 B2 H).
      rewrite fold_raster_row_map. f_equal. f_equal.
      apply map_ext. intro r. apply fold_apply_feature_value.
  - exists (fun _ => None), [(Error, iso ++ ": Could not download geotiff")], None.
    split; [apply blind_none|]. now rewrite !map_assign_none.
Qed.

Lemma analyze_tabular_congruent (env : Collaborators) (cfg : Configuration)
    (B1 B2 : boundaries) (resource : Resource) (iso : string) (level : Z) :
  only_population_changed B1 B2 ->
  exists c alog updated,
    blind c
    /\ analyze_tabular env cfg B1 resource iso level = (alog, map (assign c) B1, updated)
    /\ analyze_tabular env cfg B2 resource iso level = (alog, map (assign c) B2, updated).
Proof.
  intro H.
  destruct (get_tabular_rows env (url resource)) as [headers rows] eqn:Hrows.
  rewrite !(analyze_tabular_reading env cfg _ resource iso level headers rows Hrows).
  destruct (negb (truthy (fst (resolve_headers cfg level headers)))).
  { eexists (fun _ => None), _, _. split; [apply blind_none|].
    rewrite !map_assign_none. split; reflexivity. }
  destruct (negb (truthy (snd (resolve_headers cfg level headers)))).
  { eexists (fun _ => None), _, _. split; [apply blind_none|].
    rewrite !map_assign_none. split; reflexivity. }
  cbv zeta.
  set (ph := header_text (fst (resolve_headers cfg level headers))).
  set (vh := header_text (snd (resolve_headers cfg level headers))).
  assert (K : forall c, pcode_known c B2 = pcode_known c B1).
  { intro c. unfold pcode_known. now rewrite (pcodes_population_only B1 B2 H). }
  eexists (fun r : BoundaryRecord =>
             match last_row_for ph (ADM_PCODE r) rows with
             | Some x => Some (x vh)
             | None => None
             end), _, _.
  split; [intros w r; reflexivity|]. split.
  - f_equal. f_equal. apply map_ext. intro r. unfold assign.
    destruct (last_row_for ph (ADM_PCODE r) rows); reflexivity.
  - f_equal; [f_equal|].
    + f_equal. apply filter_ext. intro r. now rewrite K.
    + apply map_ext. intro r. unfold assign.
      destruct (last_row_for ph (ADM_PCODE r) rows); reflexivity.
    + rewrite (existsb_pointwise _ (fun r => pcode_known (r ph) B1) rows); [reflexivity|].
      intro r. apply K.
Qed.

Lemma map_assign_twice (c : BoundaryRecord -> option cell) (B : boundaries) :
  blind c -> map (assign c) (map (assign c) B) = map (assign c) B.
Proof.
  intro Hc. rewrite map_map. apply map_ext. intro r. now apply assign_twice.
Qed.

Lemma map_assign_over (c1 c2 : BoundaryRecord -> option cell) (B : boundaries) :
  blind c2 -> map (assign c2) (map (assign c1) B) = map (assign (over c2 c1)) B.
Proof.
  intro H2. rewrite map_map. apply map_ext. intro r. now apply assign_over.
Qed.

Lemma map_assign_changes_population_only (c : BoundaryRecord -> option cell)
    (B : boundaries) :
  only_population_changed B (map (assign c) B).
Proof. apply only_population_changed_map. intro r. apply assign_population_only. Qed.

Lemma process_pair_congruent (env : Collaborators) (cfg : Configuration)
    (st1 st2 : run_state) (iso : string) (level : Z) :
  only_population_changed (frame st1) (frame st2) ->
  run_log st2 = run_log st1 ->
  updated_countries st2 = updated_countries st1 ->
  exists c log uc o,
    blind c
    /\ process_pair env cfg st1 iso level
       = (mkRun (map (assign c) (frame st1)) log uc, o)
    /\ process_pair env cfg st2 iso level
       = (mkRun (map (assign c) (frame st2)) log uc, o).
Proof.
  intros H Hlog Huc. unfold process_pair. rewrite Hlog, Huc.
  destruct (find_resource env cfg iso level) as [flog [[[resource|] resource_type]|e]].
  - destruct resource_type.
    + destruct (analyze_raster_congruent env (frame st1) (frame st2) resource iso level H)
        as [c [alog [updated [Hc [E1 E2]]]]].
      rewrite E1, E2. exists c. eexists _, _, _. split; [exact Hc|]. split; reflexivity.
    + destruct (analyze_tabular_congruent env cfg (frame st1) (frame st2) resource iso level H)
        as [c [alog [updated [Hc [E1 E2]]]]].
      rewrite E1, E2. exists c. eexists _, _, _. split; [exact Hc|]. split; reflexivity.
  - exists (fun _ => None). eexists _, _, _. split; [apply blind_none|].
    rewrite !map_assign_none. split; reflexivity.
  - exists (fun _ => None). eexists _, _, _. split; [apply blind_none|].
    rewrite !map_assign_none. split; reflexivity.
Qed.

Lemma process_levels_congruent (env : Collaborators) (cfg : Configuration)
    (iso : string) (levels : list Z) (st1 st2 : run_state) :
  only_population_changed (frame st1) (frame st2) ->
  run_log st2 = run_log st1 ->
  updated_countries st2 = updated_countries st1 ->
  exists c log uc o,
    blind c
    /\ process_levels env cfg st1 iso levels
       = (mkRun (map (assign c) (frame st1)) log uc, o)
    /\ process_levels env cfg st2 iso levels
       = (mkRun (map (assign c) (frame st2)) log uc, o).
Proof.
  revert st1 st2; induction levels as [|level levels IH]; intros st1 st2 H Hlog Huc.
  - exists (fun _ => None), (run_log st1), (updated_countries st1), None.
    split; [apply blind_none|]. rewrite !map_assign_none.
    destruct st1 as [f1 l1 u1], st2 as [f2 l2 u2]. simpl in *. subst.
    split; reflexivity.
  - destruct (process_pair_congruent env cfg st1 st2 iso level H Hlog Huc)
      as [c1 [log1 [uc1 [o1 [Hc1 [E1 E2]]]]]].
    cbn [process_levels]. rewrite E1, E2.
    destruct o1 as [e|].
    + exists c1, log1, uc1, (Some e). auto.
    + destruct (IH (mkRun (map (assign c1) (frame st1)) log1 uc1)
                   (mkRun (map (assign c1) (frame st2)) log1 uc1))
        as [c2 [log2 [uc2 [o2 [Hc2 [F1 F2]]]]]];
        [now apply map_assign_population_only|reflexivity|reflexivity|].
      cbn [frame] in F1, F2.
      exists (over c2 c1), log2, uc2, o2. split; [now apply blind_over|].
      rewrite F1, F2, !map_assign_over by exact Hc2. split; reflexivity.
Qed.

Lemma process_countries_congruent (env : Collaborators) (cfg : Configuration)
    (countries : list string) (st1 st2 : run_state) :
  only_population_changed (frame st1) (frame st2) ->
  run_log st2 = run_log st1 ->
  updated_countries st2 = updated_countries st1 ->
  exists c log uc o,
    blind c
    /\ process_countries env cfg st1 countries
       = (mkRun (map (assign c) (frame st1)) log uc, o)
    /\ process_countries env cfg st2 countries
       = (mkRun (map (assign c) (frame st2)) log uc, o).
Proof.
  revert st1 st2; induction countries as [|iso countries IH]; intros st1 st2 H Hlog Huc.
  - exists (fun _ => None), (run_log st1), (updated_countries st1), None.
    split; [apply blind_none|]. rewrite !map_assign_none.
    destruct st1 as [f1 l1 u1], st2 as [f2 l2 u2]. simpl in *. subst.
    split; reflexivity.
  - cbn [process_countries].
    rewrite (levels_of_population_only (frame st1) (frame st2) iso H).
    destruct (process_levels_congruent env cfg iso (levels_of (frame st1) iso)
                st1 st2 H Hlog Huc)
      as [c1 [log1 [uc1 [o1 [Hc1 [E1 E2]]]]]].
    rewrite E1, E2. destruct o1 as [e|].
    + exists c1, log1, uc1, (Some e). auto.
    + destruct (IH (mkRun (map (assign c1) (frame st1)) log1 uc1)
                   (mkRun (map (assign c1) (frame st2)) log1 uc1))
        as [c2 [log2 [uc2 [o2 [Hc2 [F1 F2]]]]]];
        [now apply map_assign_population_only|reflexivity|reflexivity|].
      cbn [frame] in F1, F2.
      exists (over c2 c1), log2, uc2, o2. split; [now apply blind_over|].
      rewrite F1, F2, !map_assign_over by exact Hc2. split; reflexivity.
Qed.

(** X10.  [analyze_raster] is idempotent: called again on the boundary
    table it left, with the same resource, country and level, it logs the
    same, returns the same and leaves the table as it is. *)
Theorem analyze_raster_idempotent (env : Collaborators) (B B' : boundaries)
    (resource : Resource) (iso : string) (level : Z)
    (alog : list log_entry) (updated : option string) :
  analyze_raster env B resource iso level = (alog, B', updated) ->
  analyze_raster env B' resource iso level = (alog, B', updated).
Proof.
  intro H.
  destruct (analyze_raster_congruent env B B resource iso level
              (only_population_changed_refl B)) as [c0 [l0 [u0 [_ [E0 _]]]]].
  rewrite E0 in H. inversion H; subst.
  destruct (analyze_raster_congruent env B (map (assign c0) B) resource iso level
              (map_assign_changes_population_only c0 B))
    as [c [l [u [Hc [E1 E2]]]]].
  rewrite E0 in E1. inversion E1 as [[Hl HB Hu]].
  rewrite E2, HB, (map_assign_twice c B Hc). reflexivity.
Qed.

Lemma analyze_raster_idempotent_example :
  analyze_raster env_raster
    [boundary 0 "AAA" 1 "A01" (CInt 1234) "POLYGON A";
     boundary 1 "AAA" 1 "A02" CNull "POLYGON B";
     boundary 2 "AAA" 1 "A03" (CInt 7) "POLYGON C";
     boundary 3 "AAA" 2 "A0101" CNull "POLYGON A";
     boundary 4 "AAA" 3 "A010101" CNull "POLYGON C"] tif "AAA" 1
  = ([],
     [boundary 0 "AAA" 1 "A01" (CInt 1234) "POLYGON A";
      boundary 1 "AAA" 1 "A02" CNull "POLYGON B";
      boundary 2 "AAA" 1 "A03" (CInt 7) "POLYGON C";
      boundary 3 "AAA" 2 "A0101" CNull "POLYGON A";
      boundary 4 "AAA" 3 "A010101" CNull "POLYGON C"],
     Some "AAA").
Proof.
  apply (analyze_raster_idempotent env_raster B_raster). vm_compute. reflexivity.
Defined.

(** X11.  [analyze_tabular] is idempotent: called again on the boundary
    table it left, with the same resource, country and level, it logs the
    same warnings, returns the same and leaves the table as it is. *)
Theorem analyze_tabular_idempotent (env : Collaborators) (cfg : Configuration)
    (B B' : boundaries) (resource : Resource) (iso : string) (level : Z)
    (alog : list log_entry) (updated : option string) :
  analyze_tabular env cfg B resource iso level = (alog, B', updated) ->
  analyze_tabular env cfg B' resource iso level = (alog, B', updated).
Proof.
  intro H.
  destruct (analyze_tabular_congruent env cfg B B resource iso level
              (only_population_changed_refl B)) as [c0 [l0 [u0 [_ [E0 _]]]]].
  rewrite E0 in H. inversion H; subst.
  destruct (analyze_tabular_congruent env cfg B (map (assign c0) B) resource iso level
              (map_assign_changes_population_only c0 B))
    as [c [l [u [Hc [E1 E2]]]]].
  rewrite E0 in E1. inversion E1 as [[Hl HB Hu]].
  rewrite E2, HB, (map_assign_twice c B Hc). reflexivity.
Qed.

Lemma analyze_tabular_idempotent_example :
  analyze_tabular env_ken cfg_default
    [boundary 0 "KEN" 1 "KE01" (CStr "500000") "POLYGON A";
     boundary 1 "KEN" 2 "KE0101" CNull "POLYGON B"] ken_adm1 "KEN" 1
  = ([],
     [boundary 0 "KEN" 1 "KE01" (CStr "500000") "POLYGON A";
      boundary 1 "KEN" 2 "KE0101" CNull "POLYGON B"],
     Some "KEN").
Proof.
  apply (analyze_tabular_idempotent env_ken cfg_default B_ken). vm_compute. reflexivity.
Defined.

(** X12.  [update_population] is idempotent against an unchanged catalog:
    run again for the same countries on the boundary table it left, it logs
    the same, returns the same dict (or raises the same exception) and leaves
    the table as it is, so the final populations are those of the first
    run. *)
Theorem update_population_idempotent (env : Collaborators) (cfg : Configuration)
    (B B' : boundaries) (countries : list string)
    (log : list log_entry) (outcome : result updated_map) :
  update_population env cfg B countries = (B', log, outcome) ->
  update_population env cfg B' countries = (B', log, outcome).
Proof.
  unfold update_population. intro H.
  destruct (process_countries_congruent env cfg countries (mkRun B [] []) (mkRun B [] [])
              (only_population_changed_refl B) eq_refl eq_refl)
    as [c0 [l0 [u0 [o0 [_ [E0 _]]]]]].
  cbn [frame] in E0. rewrite E0 in H.
  assert (HB : B' = map (assign c0) B) by (destruct o0; inversion H; reflexivity).
  destruct (process_countries_congruent env cfg countries (mkRun B [] [])
              (mkRun (map (assign c0) B) [] [])
              (map_assign_changes_population_only c0 B) eq_refl eq_refl)
    as [c [l [u [o [Hc [E1 E2]]]]]].
  cbn [frame] in E1, E2. rewrite E0 in E1. inversion E1 as [[Hf Hl Hu Ho]].
  subst B'. rewrite E2, Hf, (map_assign_twice c B Hc), <- Hf, <- Hl, <- Hu, <- Ho.
  exact H.
Qed.

Lemma update_population_idempotent_example :
  update_population env_bbb cfg_default
    [boundary 0 "AAA" 1 "A01" CNull "POLYGON A";
     boundary 1 "BBB" 1 "B01" (CStr "42") "POLYGON B"] ["BBB"]
  = ([boundary 0 "AAA" 1 "A01" CNull "POLYGON A";
      boundary 1 "BBB" 1 "B01" (CStr "42") "POLYGON B"],
     [(Info, "BBB: Processing population at adm1")],
     Ok [(1, ["BBB"])]).
Proof.
  apply (update_population_idempotent env_bbb cfg_default B_two). vm_compute. reflexivity.
Defined.

(** ** What the merged table holds, whatever the labels *)

Lemma in_some_slice_app (done todo : updated_map) (r : PopulationRow) :
  in_some_slice (List.app done todo) r = in_some_slice done r || in_some_slice todo r.
Proof. unfold in_some_slice. apply existsb_app. Qed.

Lemma slice_mask_level (level : Z) (isos : list string) (r : PopulationRow) :
  slice_mask level isos r = true -> ADM_LEVEL r = level.
Proof.
  unfold slice_mask. intro H. apply andb_true_iff in H. now apply Z.eqb_eq.
Qed.

Lemma drop_labels_In (labels : list Z) (t : table) (r : PopulationRow) :
  In r (drop_labels labels t) <-> In r t /\ ~ In (label r) labels.
Proof.
  unfold drop_labels. rewrite filter_In, negb_true_iff. split.
  - intros [Hr E]. split; [exact Hr|]. intro Hin.
    assert (existsb (Z.eqb (label r)) labels = true).
    { apply existsb_exists. exists (label r). split; [exact Hin|apply Z.eqb_refl]. }
    congruence.
  - intros [Hr Hn]. split; [exact Hr|].
    destruct (existsb (Z.eqb (label r)) labels) eqn:E; [|reflexivity].
    apply existsb_exists in E. destruct E as [l [Hl E]]. apply Z.eqb_eq in E.
    subst l. contradiction.
Qed.

(** A row that stays through a pass is outside the slice of the pass. *)
Lemma merge_level_kept (U pd : table) (level : Z) (isos : list string)
    (r : PopulationRow) :
  In r (merge_level U pd (level, isos)) ->
  (In r pd /\ slice_mask level isos r = false)
  \/ (In r U /\ slice_mask level isos r = true).
Proof.
  unfold merge_level. intro H. apply in_app_or in H. destruct H as [H|H].
  - left. apply drop_labels_In in H. destruct H as [Hr Hn]. split; [exact Hr|].
    destruct (slice_mask level isos r) eqn:E; [|reflexivity].
    exfalso. apply Hn. apply in_map. apply filter_In. auto.
  - right. apply filter_In in H. exact H.
Qed.

Lemma fold_merge_level_sound (U prior : table) (todo done : updated_map) (pd : table) :
  (forall x, In x pd ->
     (In x prior /\ in_some_slice done x = false)
     \/ (In x U /\ in_some_slice done x = true)) ->
  forall x, In x (fold_left (merge_level U) todo pd) ->
    (In x prior /\ in_some_slice (List.app done todo) x = false)
    \/ (In x U /\ in_some_slice (List.app done todo) x = true).
Proof.
  revert done pd; induction todo as [|[level isos] todo IH]; intros done pd Hpd x Hx.
  - rewrite app_nil_r. now apply Hpd.
  - cbn [fold_left] in Hx.
    replace (List.app done ((level, isos) :: todo))
      with (List.app (List.app done [(level, isos)]) todo)
      by (rewrite <- app_assoc; reflexivity).
    apply (IH (List.app done [(level, isos)]) (merge_level U pd (level, isos)));
      [|exact Hx].
    intros y Hy. rewrite in_some_slice_app. unfold in_some_slice at 2 4. simpl.
    rewrite orb_false_r.
    destruct (merge_level_kept U pd level isos y Hy) as [[Hin E]|[Hin E]]; rewrite E.
    + destruct (Hpd y Hin) as [[Hp D]|[Hu D]]; rewrite D; simpl; auto.
    + right. split; [exact Hin|apply orb_true_r].
Qed.

Lemma fold_merge_level_keeps (U prior : table) (p : PopulationRow)
    (todo done : updated_map) (pd : table) :
  NoDup (map fst (List.app done todo)) ->
  NoDup (map label prior) ->
  In p prior ->
  (forall x, In x pd ->
     (In x prior /\ in_some_slice done x = false)
     \/ (In x U /\ in_some_slice done x = true)) ->
  In p pd ->
  in_some_slice todo p = false ->
  In p (fold_left (merge_level U) todo pd).
Proof.
  intros Hkeys Hnd Hp. revert done pd Hkeys.
  induction todo as [|[level isos] todo IH]; intros done pd Hkeys Hpd Hin Hout;
    [exact Hin|].
  cbn [fold_left]. unfold in_some_slice in Hout. simpl in Hout.
  apply orb_false_iff in Hout. destruct Hout as [Hm Hout].
  apply (IH (List.app done [(level, isos)])).
  - rewrite <- app_assoc. exact Hkeys.
  - intros y Hy. rewrite in_some_slice_app. unfold in_some_slice at 2 4. simpl.
    rewrite orb_false_r.
    destruct (merge_level_kept U pd level isos y Hy) as [[Hy' E]|[Hy' E]]; rewrite E.
    + destruct (Hpd y Hy') as [[Hq D]|[Hu D]]; rewrite D; simpl; auto.
    + right. split; [exact Hy'|apply orb_true_r].
  - unfold merge_level. apply in_or_app. left. apply drop_labels_In.
    split; [exact Hin|]. intro Hl. apply in_map_iff in Hl.
    destruct Hl as [x [El Hx]]. apply filter_In in Hx. destruct Hx as [Hx Hmx].
    destruct (Hpd x Hx) as [[Hq _]|[_ D]].
    + rewrite (NoDup_map_eq label prior x p Hnd Hq Hp El) in Hmx. congruence.
    + unfold in_some_slice in D. apply existsb_exists in D.
      destruct D as [[l' isos'] [He' Hs']]. simpl in Hs'.
      apply slice_mask_level in Hs'. apply slice_mask_level in Hmx.
      rewrite map_app in Hkeys. simpl in Hkeys.
      apply NoDup_remove_2 in Hkeys. apply Hkeys. apply in_or_app. left.
      replace level with l' by congruence.
      apply (in_map fst done (l', isos')). exact He'.
  - exact Hout.
Qed.

(** X13.  What the merged table holds whatever the index labels are:
    - every row of it is a prior row outside every updated (country set,
      level) slice, or a boundary row, without geometry, inside an updated
      slice: no prior row of an updated slice is kept and no row is made up;
    - when the levels of [updated_countries] are distinct keys and the prior
      rows have labels of their own, every prior row outside the updated
      slices is in the merged table;
    - the fresh rows of the slice processed last are all in the merged
      table. *)
Theorem merge_tables_rows (B : boundaries) (prior : table) (uc : updated_map) :
  (forall r, In r (merge_tables B prior uc) ->
     (In r prior /\ in_some_slice uc r = false)
     \/ (In r (drop_geometry B) /\ in_some_slice uc r = true))
  /\ (NoDup (map fst uc) -> NoDup (map label prior) ->
      forall r, In r prior -> in_some_slice uc r = false ->
                In r (merge_tables B prior uc))
  /\ (forall uc' level isos r,
        uc = List.app uc' [(level, isos)] ->
        In r (drop_geometry B) -> slice_mask level isos r = true ->
        In r (merge_tables B prior uc)).
Proof.
  unfold merge_tables. split; [|split].
  - intros r Hr.
    apply (Permutation_in _ (sort_values_perm _)) in Hr.
    apply (fold_merge_level_sound (drop_geometry B) prior uc [] prior); [|exact Hr].
    intros x Hx. left. split; [exact Hx|reflexivity].
  - intros Hkeys Hnd r Hr Hout.
    apply (Permutation_in _ (Permutation_sym (sort_values_perm _))).
    apply (fold_merge_level_keeps (drop_geometry B) prior r uc [] prior);
      auto.
  - intros uc' level isos r -> Hr Hm.
    apply (Permutation_in _ (Permutation_sym (sort_values_perm _))).
    rewrite fold_left_app. cbn [fold_left]. unfold merge_level.
    apply in_or_app. right. apply filter_In. auto.
Qed.

Lemma merge_tables_rows_example :
  In (mkRow 4 "CCC" 1 "C1" (CInt 50) [])
     (merge_tables B_levels (read_csv env_overall "/tmp/population.csv") uc_both)
  /\ In (mkRow 3 "BBB" 2 "B2" (CInt 41) [])
        (merge_tables B_levels (read_csv env_overall "/tmp/population.csv") uc_both).
Proof.
  pose proof (merge_tables_rows B_levels (read_csv env_overall "/tmp/population.csv")
                uc_both) as [_ [Hkeep Hlast]].
  split.
  - apply Hkeep.
    + simpl. repeat constructor; simpl; intuition discriminate.
    + apply read_csv_labels.
    + vm_compute. tauto.
    + reflexivity.
  - apply (Hlast [(1, ["AAA"; "BBB"])] 2 ["AAA"; "BBB"]).
    + reflexivity.
    + vm_compute. tauto.
    + reflexivity.
Defined.

(** ** The shape of the returned dict *)

Lemma level_in_spec (level : Z) (uc : updated_map) :
  level_in level uc = true <-> In level (map fst uc).
Proof.
  unfold level_in. rewrite existsb_exists. split.
  - intros [e [He E]]. apply Z.eqb_eq in E. subst. now apply in_map.
  - intro H. apply in_map_iff in H. destruct H as [e [E He]].
    exists e. split; [exact He|]. now apply Z.eqb_eq.
Qed.

Lemma map_fst_uc_append (uc : updated_map) (level : Z) (iso : string) :
  map fst (uc_append uc level iso) = map fst uc.
Proof.
  induction uc as [|[l isos] uc IH]; simpl; [reflexivity|].
  destruct (l =? level); simpl; [reflexivity|now rewrite IH].
Qed.

Lemma uc_append_lists (uc : updated_map) (level : Z) (iso : string) :
  (forall e, In e uc -> NoDup (snd e)) ->
  ~ In iso (uc_get uc level) ->
  forall e, In e (uc_append uc level iso) -> NoDup (snd e).
Proof.
  induction uc as [|[l isos] uc IH]; simpl; intros Hall Hnot e He; [contradiction|].
  destruct (l =? level).
  - destruct He as [<-|He]; [|apply Hall; now right]. simpl.
    apply (Permutation_NoDup (Permutation_cons_append isos iso)).
    constructor; [exact Hnot|]. apply (Hall (l, isos)). now left.
  - destruct He as [<-|He]; [apply (Hall (l, isos)); now left|].
    apply IH; auto.
Qed.

(** The dict after a pair, whether the pair returns or raises: the keys are
    those before and the level of the pair; the lists have no duplicate. *)
Lemma process_pair_dict (env : Collaborators) (cfg : Configuration)
    (st : run_state) (iso : string) (level : Z) :
  NoDup (map fst (updated_countries st)) ->
  (forall e, In e (updated_countries st) -> NoDup (snd e)) ->
  NoDup (map fst (updated_countries (fst (process_pair env cfg st iso level))))
  /\ (forall e, In e (updated_countries (fst (process_pair env cfg st iso level))) ->
                NoDup (snd e))
  /\ (forall l, In l (map fst (updated_countries (fst (process_pair env cfg st iso level))))
                <-> In l (map fst (updated_countries st)) \/ l = level).
Proof.
  intros Hk Hl. unfold process_pair.
  set (uc1 := if level_in level (updated_countries st) then updated_countries st
              else List.app (updated_countries st) [(level, [])]).
  assert (K1 : NoDup (map fst uc1)).
  { unfold uc1. destruct (level_in level (updated_countries st)) eqn:E; [exact Hk|].
    rewrite map_app. simpl.
    apply (Permutation_NoDup (Permutation_cons_append _ level)).
    constructor; [|exact Hk]. intro Hin. apply level_in_spec in Hin. congruence. }
  assert (L1 : forall e, In e uc1 -> NoDup (snd e)).
  { unfold uc1. destruct (level_in level (updated_countries st)); [exact Hl|].
    intros e He. apply in_app_or in He. destruct He as [He|[<-|[]]]; [now apply Hl|].
    constructor. }
  assert (M1 : forall l, In l (map fst uc1)
                         <-> In l (map fst (updated_countries st)) \/ l = level).
  { intro l. unfold uc1. destruct (level_in level (updated_countries st)) eqn:E.
    - apply level_in_spec in E. split; [now left|]. intros [H | ->]; assumption.
    - rewrite map_app, in_app_iff. simpl. intuition. }
  destruct (find_resource env cfg iso level) as [flog [[[resource|] resource_type]|e]];
    try (cbn [fst updated_countries]; auto).
  destruct (match resource_type with
            | Geotiff => analyze_raster env (frame st) resource iso level
            | Csv => analyze_tabular env cfg (frame st) resource iso level
            end) as [[alog B'] updated].
  cbn [fst updated_countries].
  destruct (truthy updated && negb (str_in iso (uc_get uc1 level))) eqn:Ec; [|auto].
  apply andb_true_iff in Ec. destruct Ec as [_ Ec]. apply negb_true_iff in Ec.
  rewrite map_fst_uc_append. split; [exact K1|]. split; [|exact M1].
  apply uc_append_lists; [exact L1|].
  intro Hin. apply str_in_In in Hin. congruence.
Qed.

Lemma process_levels_dict (env : Collaborators) (cfg : Configuration)
    (iso : string) (levels : list Z) (st : run_state) :
  NoDup (map fst (updated_countries st)) ->
  (forall e, In e (updated_countries st) -> NoDup (snd e)) ->
  NoDup (map fst (updated_countries (fst (process_levels env cfg st iso levels))))
  /\ (forall e, In e (updated_countries (fst (process_levels env cfg st iso levels))) ->
                NoDup (snd e))
  /\ (snd (process_levels env cfg st iso levels) = None ->
      forall l, In l (map fst (updated_countries (fst (process_levels env cfg st iso levels))))
                <-> In l (map fst (updated_countries st)) \/ In l levels).
Proof.
  revert st; induction levels as [|level levels IH]; intros st Hk Hl.
  - simpl. split; [exact Hk|]. split; [exact Hl|]. intros _ l. tauto.
  - cbn [process_levels].
    destruct (process_pair_dict env cfg st iso level Hk Hl) as [K1 [L1 M1]].
    destruct (process_pair env cfg st iso level) as [st1 [e|]]; cbn [fst] in *.
    + split; [exact K1|]. split; [exact L1|]. discriminate.
    + destruct (IH st1 K1 L1) as [K2 [L2 M2]].
      split; [exact K2|]. split; [exact L2|].
      intros Hnone l. rewrite (M2 Hnone l), M1. simpl. intuition.
Qed.

Lemma process_levels_frame (env : Collaborators) (cfg : Configuration)
    (iso : string) (levels : list Z) (st : run_state) :
  only_population_changed (frame st)
    (frame (fst (process_levels env cfg st iso levels))).
Proof.
  destruct (process_levels_congruent env cfg iso levels st st
              (only_population_changed_refl _) eq_refl eq_refl)
    as [c [log [uc [o [_ [E _]]]]]].
  rewrite E. apply map_assign_changes_population_only.
Qed.

Lemma process_countries_dict (env : Collaborators) (cfg : Configuration)
    (countries : list string) (st : run_state) :
  NoDup (map fst (updated_countries st)) ->
  (forall e, In e (updated_countries st) -> NoDup (snd e)) ->
  NoDup (map fst (updated_countries (fst (process_countries env cfg st countries))))
  /\ (forall e, In e (updated_countries (fst (process_countries env cfg st countries))) ->
                NoDup (snd e))
  /\ (snd (process_countries env cfg st countries) = None ->
      forall l, In l (map fst (updated_countries (fst (process_countries env cfg st countries))))
                <-> In l (map fst (updated_countries st))
                    \/ exists iso, In (iso, l) (pairs_of (frame st) countries)).
Proof.
  revert st; induction countries as [|iso countries IH]; intros st Hk Hl.
  - simpl. split; [exact Hk|]. split; [exact Hl|]. intros _ l.
    split; [now left|]. intros [H|[iso []]]. exact H.
  - cbn [process_countries].
    destruct (process_levels_dict env cfg iso (levels_of (frame st) iso) st Hk Hl)
      as [K1 [L1 M1]].
    pose proof (process_levels_frame env cfg iso (levels_of (frame st) iso) st) as F1.
    destruct (process_levels env cfg st iso (levels_of (frame st) iso)) as [st1 [e|]];
      cbn [fst snd] in *.
    + split; [exact K1|]. split; [exact L1|]. discriminate.
    + destruct (IH st1 K1 L1) as [K2 [L2 M2]].
      split; [exact K2|]. split; [exact L2|].
      intros Hnone l. rewrite (M2 Hnone l), (M1 eq_refl l).
      rewrite (pairs_of_population_only _ _ countries F1).
      unfold pairs_of. simpl. split.
      * intros [[H|H]|[iso' H]]; [now left| |].
        -- right. exists iso. apply in_or_app. left. now apply in_map.
        -- right. exists iso'. apply in_or_app. now right.
      * intros [H|[iso' H]]; [left; now left|].
        apply in_app_or in H. destruct H as [H|H].
        -- apply in_map_iff in H. destruct H as [l' [E Hl']].
           inversion E; subst. left. now right.
        -- right. now exists iso'.
Qed.

(** X14.  The dict that [update_population] returns:
    - has one entry per level, and a level has an entry exactly when it was
      attempted for some country of the run, also when no country succeeded
      at it (the list is then empty);
    - lists no country twice under a level, also when the run names a
      country more than once. *)
Theorem update_population_dict (env : Collaborators) (cfg : Configuration)
    (B B' : boundaries) (countries : list string) (log : list log_entry)
    (uc : updated_map) :
  update_population env cfg B countries = (B', log, Ok uc) ->
  NoDup (map fst uc)
  /\ (forall level, NoDup (uc_get uc level))
  /\ (forall level,
        In level (map fst uc) <-> exists iso, In (iso, level) (pairs_of B countries)).
Proof.
  unfold update_population. intro H.
  destruct (process_countries_dict env cfg countries (mkRun B [] []))
    as [K [L M]]; [constructor|intros e []|].
  destruct (process_countries env cfg (mkRun B [] []) countries) as [st [e|]];
    [discriminate|].
  inversion H; subst. cbn [fst snd updated_countries frame] in *.
  split; [exact K|]. split.
  - intro level. clear K M H.
    induction (updated_countries st) as [|[l isos] u IH]; simpl; [constructor|].
    destruct (l =? level).
    + apply (L (l, isos)). now left.
    + apply IH. intros e He. apply L. now right.
  - intro level. rewrite (M eq_refl level). split; [|now right].
    intros [[]|Hp]. exact Hp.
Qed.

Lemma update_population_dict_example :
  NoDup (map fst [(1, ["KEN"]); (2, ["KEN"])])
  /\ (forall level, NoDup (uc_get [(1, ["KEN"]); (2, ["KEN"])] level))
  /\ (forall level,
        In level (map fst [(1, ["KEN"]); (2, ["KEN"])])
        <-> exists iso, In (iso, level) (pairs_of B_ken ["KEN"])).
Proof.
  apply (update_population_dict env_ken cfg_default B_ken
           [boundary 0 "KEN" 1 "KE01" (CStr "900") "POLYGON A";
            boundary 1 "KEN" 2 "KE0101" CNull "POLYGON B"]
           ["KEN"]
           [(Info, "KEN: Processing population at adm1");
            (Info, "KEN: Processing population at adm2")]).
  vm_compute. reflexivity.
Defined.

(** ** Some name holds the greatest year *)

















(** ** A failed aggregation leaves the table alone *)

Lemma last_row_for_known (ph : string) (rows : list row) (B : boundaries)
    (rec : BoundaryRecord) (r : row) :
  In rec B -> last_row_for ph (ADM_PCODE rec) rows = Some r ->
  existsb (fun r => pcode_known (r ph) B) rows = true.
Proof.
  intro Hrec. induction rows as [|r0 rows IH]; simpl; [discriminate|].
  destruct (last_row_for ph (ADM_PCODE rec) rows) as [r'|].
  - intro H. rewrite (IH H). apply orb_true_r.
  - destruct (cell_is (r0 ph) (ADM_PCODE rec)) eqn:E; [|discriminate].
    intros _. apply cell_is_spec in E.
    assert (K : pcode_known (r0 ph) B = true) by (apply pcode_known_spec; eauto).
    now rewrite K.
Qed.

(** X16.  An aggregation that reports failure has written nothing: when
    [analyze_raster] or [analyze_tabular] returns the failure marker [None],
    the boundary table after the call is the table before it.  For
    [analyze_tabular] the converse holds as well once both header roles are
    resolved: when it returns the country code, some row of the table carries
    the pcode of a streamed row. *)
Theorem failed_aggregation_writes_nothing (env : Collaborators) (cfg : Configuration)
    (B : boundaries) (resource : Resource) (iso : string) (level : Z) :
  (snd (analyze_raster env B resource iso level) = None ->
     snd (fst (analyze_raster env B resource iso level)) = B)
  /\ (snd (analyze_tabular env cfg B resource iso level) = None ->
      snd (fst (analyze_tabular env cfg B resource iso level)) = B)
  /\ (forall s, snd (analyze_tabular env cfg B resource iso level) = Some s ->
        exists (r : row) (rec : BoundaryRecord),
          In r (snd (get_tabular_rows env (url resource)))
          /\ In rec B
          /\ r (header_text (fst (resolve_headers cfg level
                                    (fst (get_tabular_rows env (url resource))))))
             = CStr (ADM_PCODE rec)).
Proof.
  split; [|split].
  - unfold analyze_raster. destruct (download resource); [discriminate|reflexivity].
  - destruct (get_tabular_rows env (url resource)) as [headers rows] eqn:Hrows.
    rewrite (analyze_tabular_reading env cfg B resource iso level headers rows Hrows).
    destruct (negb (truthy (fst (resolve_headers cfg level headers)))); [reflexivity|].
    destruct (negb (truthy (snd (resolve_headers cfg level headers)))); [reflexivity|].
    cbv zeta. cbn [fst snd].
    set (ph := header_text (fst (resolve_headers cfg level headers))).
    destruct (existsb (fun r => pcode_known (r ph) B) rows) eqn:E; [discriminate|].
    intros _.
    rewrite <- (map_id B) at 2. apply map_ext_in. intros rec Hrec.
    destruct (last_row_for ph (ADM_PCODE rec) rows) as [r|] eqn:El; [|reflexivity].
    rewrite (last_row_for_known ph rows B rec r Hrec El) in E. discriminate.
  - intro s.
    destruct (get_tabular_rows env (url resource)) as [headers rows] eqn:Hrows.
    rewrite (analyze_tabular_reading env cfg B resource iso level headers rows Hrows).
    cbn [fst snd].
    destruct (negb (truthy (fst (resolve_headers cfg level headers)))); [discriminate|].
    destruct (negb (truthy (snd (resolve_headers cfg level headers)))); [discriminate|].
    cbv zeta. cbn [fst snd].
    set (ph := header_text (fst (resolve_headers cfg level headers))).
    destruct (existsb (fun r => pcode_known (r ph) B) rows) eqn:E; [|discriminate].
    intros _.
    apply existsb_exists in E. destruct E as [r [Hr K]].
    apply pcode_known_spec in K. destruct K as [rec [Hrec Hc]].
    exists r, rec. auto.
Qed.

Lemma failed_aggregation_example :
  snd (fst (analyze_raster env_raster B_raster tif_unreachable "AAA" 1)) = B_raster
  /\ snd (fst (analyze_tabular env_ken cfg_default B_ken ken_adm3 "KEN" 3)) = B_ken.
Proof.
  pose proof (failed_aggregation_writes_nothing env_raster cfg_default B_raster
                tif_unreachable "AAA" 1) as [Hr _].
  pose proof (failed_aggregation_writes_nothing env_ken cfg_default B_ken
                ken_adm3 "KEN" 3) as [_ [Ht _]].
  split; [apply Hr|apply Ht]; vm_compute; reflexivity.
Defined.

(** ** Where the level plays no part *)

(** X17.  The level takes part in the choice of [find_resource] through
    the default table pattern only.  When a resource-name pattern is
    configured for the country, or when the country's dataset is missing,
    [find_resource] returns the same resource and kind (or raises the same
    exception) for every level. *)
Theorem find_resource_level_blind (env : Collaborators) (cfg : Configuration)
    (iso : string) (level level' : Z) :
  (exists p, dict_get (resource_exceptions cfg) iso = Some p)
  \/ read_from_hdx env (dataset_name cfg iso) = None ->
  snd (find_resource env cfg iso level) = snd (find_resource env cfg iso level').
Proof.
  intros [[p Hp]|Hd]; unfold find_resource.
  - destruct (read_from_hdx env (dataset_name cfg iso)) as [d|]; [|reflexivity].
    assert (G : filter (is_level_csv env cfg iso level) (get_resources d)
                = filter (is_level_csv env cfg iso level') (get_resources d)).
    { apply filter_ext. intro r. unfold is_level_csv, resource_name_match.
      now rewrite Hp. }
    rewrite G.
    destruct (List.length (filter (is_level_csv env cfg iso level') (get_resources d)) =? 0)%nat;
      [reflexivity|].
    destruct (if (1 <? List.length (filter (is_level_csv env cfg iso level') (get_resources d)))%nat
              then narrow_by_year (filter (is_level_csv env cfg iso level') (get_resources d))
              else Ok (filter (is_level_csv env cfg iso level') (get_resources d)))
      as [l|e]; [|reflexivity].
    destruct l; reflexivity.
  - rewrite Hd. reflexivity.
Qed.

Lemma find_resource_level_blind_example :
  snd (find_resource env_empty cfg_default "AAA" 1)
  = snd (find_resource env_empty cfg_default "AAA" 2).
Proof.
  apply (find_resource_level_blind env_empty cfg_default "AAA" 1 2).
  right. reflexivity.
Defined.
